(** * Openpilot-Deepdive: the training and validation steps of [main.py]

    A shallow embedding of [PlanningBaselineV0] (main.py): its constructor,
    [training_step] and [validation_step], together with the tensor
    operations of torch / numpy that these methods call.

    Modelling conventions.
    - Tensor elements are exact rationals ([Q]).  The rounding, the
      infinities and the NaN of float32 are outside the model; where torch
      would produce NaN by dividing by zero (the mean of an empty tensor)
      [Q] yields 0.
    - Sizes ([M], [num_pts], element counts) are taken within the range
      of a 64-bit integer; what the libraries do beyond it is outside the
      model.
    - A tensor of rank r is a list nested r times, in row-major order;
      tensors with a dimension of size 0 are told apart only by their
      outermost emptiness.
    - Python exceptions are the constructors of [exn]; a method that can
      raise returns a [result].
    - [self.log], [self.log_dict] and the matplotlib / tensorboard calls
      are writes to an explicit [state] (the trainer's side).  The methods
      never assign to an attribute of [self], so [self] is passed as a
      value.
    - torch broadcasts operands whose shapes differ only in dimensions of
      size 1.  The embedding covers operands of equal shape; every other
      pair is reported as [ShapeMismatch]. *)

From Stdlib Require Import String Bool Arith ZArith QArith Qfield Qpower Lia
  Lqa List.
Import ListNotations.

Set Implicit Arguments.

(** ** Exceptions and results *)

Inductive exn : Type :=
| IndexError
| ValueError
| RuntimeError
| ShapeMismatch.

Inductive result (A : Type) : Type :=
| Ok (a : A)
| Raise (e : exn).

Arguments Ok {A} a.
Arguments Raise {A} e.

Definition rbind {A B : Type} (r : result A) (k : A -> result B) : result B :=
  match r with
  | Ok a => k a
  | Raise e => Raise e
  end.

Declare Scope result_scope.
Delimit Scope result_scope with result.
Notation "'let*' x ':=' r 'in' k" := (rbind r (fun x => k))
  (at level 10, x pattern, r at level 100, k at level 200) : result_scope.
Local Open Scope result_scope.

Definition of_option {A : Type} (e : exn) (o : option A) : result A :=
  match o with
  | Some a => Ok a
  | None => Raise e
  end.

(** [mapM f l]: apply a fallible [f] to every element, left to right. *)
Fixpoint mapM {A B : Type} (f : A -> result B) (l : list A) : result (list B) :=
  match l with
  | [] => Ok []
  | x :: t =>
      let* y := f x in
      let* ys := mapM f t in
      Ok (y :: ys)
  end.

(** [zipM f xs ys]: element-wise combination of two operands of equal
    length. *)
Fixpoint zipM {A B C : Type} (f : A -> B -> result C)
         (xs : list A) (ys : list B) : result (list C) :=
  match xs, ys with
  | [], [] => Ok []
  | x :: xs', y :: ys' =>
      let* c := f x y in
      let* cs := zipM f xs' ys' in
      Ok (c :: cs)
  | _, _ => Raise ShapeMismatch
  end.

(** ** Tensors *)

Abbreviation Vec := (list Q).
Abbreviation Mat := (list (list Q)).
Abbreviation Tensor3 := (list (list (list Q))).
Abbreviation Tensor4 := (list (list (list (list Q)))).

Definition Qlt_bool (x y : Q) : bool := negb (Qle_bool y x).

Definition qnat (n : nat) : Q := inject_Z (Z.of_nat n).

Module torch.

(** [Tensor.sum()] of a vector. *)
Definition sum (v : Vec) : Q := fold_right Qplus 0%Q v.

(** [Tensor.mean()] of a vector. *)
Definition mean (v : Vec) : Q := (sum v / qnat (length v))%Q.

(** Scan of [argmax]: [bi] is the index of the running maximum [b], [i]
    the index of the head of the remaining list.  A later element
    replaces the running maximum only when strictly greater. *)
Fixpoint argmax_from (bi : nat) (b : Q) (i : nat) (v : Vec) : nat :=
  match v with
  | [] => bi
  | x :: t =>
      if Qlt_bool b x then argmax_from i x (S i) t
      else argmax_from bi b (S i) t
  end.

Fixpoint argmin_from (bi : nat) (b : Q) (i : nat) (v : Vec) : nat :=
  match v with
  | [] => bi
  | x :: t =>
      if Qlt_bool x b then argmin_from i x (S i) t
      else argmin_from bi b (S i) t
  end.

(** [torch.argmax(v, -1)] / [torch.argmin(v, -1)] on one row: the index
    of the first extremal value; an empty reduction dimension raises. *)
Definition argmax1 (v : Vec) : result nat :=
  match v with
  | [] => Raise IndexError
  | x :: t => Ok (argmax_from 0 x 1 t)
  end.

Definition argmin1 (v : Vec) : result nat :=
  match v with
  | [] => Raise IndexError
  | x :: t => Ok (argmin_from 0 x 1 t)
  end.

(** [torch.argmax(m, -1)] / [torch.argmin(m, -1)] on a matrix. *)
Definition argmax (m : Mat) : result (list nat) := mapM argmax1 m.
Definition argmin (m : Mat) : result (list nat) := mapM argmin1 m.

(** [k] consecutive blocks of [n] elements. *)
Fixpoint chunks {A : Type} (k n : nat) (l : list A) : list (list A) :=
  match k with
  | O => []
  | S k' => firstn n l :: chunks k' n (skipn n l)
  end.

(** [view n l]: regroup a row-major sequence in blocks of [n]. *)
Definition view {A : Type} (n : nat) (l : list A) : list (list A) :=
  chunks (length l / n) n l.

(** [t.reshape(-1, M, num_pts, 3)] on the row-major elements of [t]: a
    size that is not positive, or that does not divide the number of
    elements, is refused with the exception [e] of the library at hand
    ([RuntimeError] for torch, [ValueError] for numpy). *)
Definition reshape (e : exn) (M num_pts : Z) (data : list Q)
  : result Tensor4 :=
  if ((M <=? 0) || (num_pts <=? 0))%Z then Raise e
  else
    let m := Z.to_nat M in
    let p := Z.to_nat num_pts in
    if (length data mod (m * p * 3) =? 0)%nat
    then Ok (view m (view p (view 3 data)))
    else Raise e.

(** [t[torch.tensor(range(bs)), idx, ...]]: for each example [i < bs] the
    entry [idx[i]] of its second dimension.  [torch.tensor(range(0))] is
    an empty tensor of floats, which torch refuses as an index: an empty
    batch raises IndexError. *)
Definition gather {A : Type} (t : list (list A)) (bs : nat)
           (idx : list nat) : result (list A) :=
  match bs with
  | O => Raise IndexError
  | S _ =>
      zipM (fun i c =>
              let* ex := of_option IndexError (nth_error t i) in
              of_option IndexError (nth_error ex c))
           (seq 0 bs) idx
  end.

Definition sqdiff (x y : Q) : result Q := Ok ((x - y) * (x - y))%Q.

(** [F.mse_loss(a, b, reduction='none')] on rank-3 and rank-4 tensors. *)
Definition mse_none3 (a b : Tensor3) : result Tensor3 :=
  zipM (zipM (zipM sqdiff)) a b.

Definition mse_none4 (a b : Tensor4) : result Tensor4 :=
  zipM mse_none3 a b.

(** [F.mse_loss(a, b)]: the mean over all elements. *)
Definition mse_loss (a b : Tensor3) : result Q :=
  let* d := mse_none3 a b in
  Ok (mean (concat (concat d))).

(** [t.sum(dim=(2, 3))] on a rank-4 tensor. *)
Definition sum_23 (t : Tensor4) : Mat :=
  map (map (fun traj => sum (concat traj))) t.

(** [labels[:, None, ...].expand(-1, M, -1, -1)]. *)
Definition expand_M (M : Z) (labels : Tensor3) : Tensor4 :=
  map (fun gt => repeat gt (Z.to_nat M)) labels.

(** [torch.sum(a == b)] on two index vectors. *)
Definition count_eq (a b : list nat) : result nat :=
  let* e := zipM (fun x y => Ok (Nat.eqb x y)) a b in
  Ok (length (filter (fun t => t) e)).

End torch.

(** [a[i, :, c]] and [a[i, j, :, c]] of numpy: column [c] of every point of
    one trajectory; [m[i, j]]: one entry of a matrix; [v[i]]: one entry of
    a vector.  An index out of range raises [IndexError]. *)
Module numpy.

Definition item (v : Vec) (i : nat) : result Q :=
  of_option IndexError (nth_error v i).

Definition item2 (m : Mat) (i j : nat) : result Q :=
  let* row := of_option IndexError (nth_error m i) in
  item row j.

Definition column3 (t : Tensor3) (i c : nat) : result Vec :=
  let* traj := of_option IndexError (nth_error t i) in
  mapM (fun pt => item pt c) traj.

Definition column4 (t : Tensor4) (i j c : nat) : result Vec :=
  let* ex := of_option IndexError (nth_error t i) in
  column3 ex j c.

(** Unary minus on an array. *)
Definition neg (v : Vec) : Vec := map Qopp v.

End numpy.

(** ** The trainer's side: logged scalars and figures *)

(** One [ax.plot(x, y, fmt, label=...)] call.  A label built with
    ['... %.3f' % c] is kept as the format string and the value [c]. *)
Record line2d : Type := {
  xdata : Vec;
  ydata : Vec;
  fmt : string;
  label : string * option Q
}.

Definition figure : Type := list line2d.

Record state : Type := {
  logged : list (string * Q);           (* self.log / self.log_dict *)
  figures : list (string * figure * Z); (* logger.experiment.add_figure *)
  global_step : Z                       (* self.global_step *)
}.

(** State and exceptions: a raised exception abandons the run. *)
Definition Eff (A : Type) : Type := state -> result (A * state).

Definition ret {A : Type} (a : A) : Eff A := fun s => Ok (a, s).

Definition bind {A B : Type} (c : Eff A) (k : A -> Eff B) : Eff B :=
  fun s =>
    match c s with
    | Ok (a, s') => k a s'
    | Raise e => Raise e
    end.

Definition lift {A : Type} (r : result A) : Eff A :=
  fun s =>
    match r with
    | Ok a => Ok (a, s)
    | Raise e => Raise e
    end.

Declare Scope eff_scope.
Delimit Scope eff_scope with eff.
Notation "x <- c ;; k" := (bind c (fun x => k))
  (at level 61, c at next level, right associativity) : eff_scope.
Notation "' p <- c ;; k" := (bind c (fun x => match x with p => k end))
  (at level 61, p pattern, c at next level, right associativity) : eff_scope.
Notation "c ;; k" := (bind c (fun _ => k))
  (at level 61, right associativity) : eff_scope.

(** [self.log(name, value)]. *)
Definition log (name : string) (value : Q) : Eff unit :=
  fun s => Ok (tt, {| logged := logged s ++ [(name, value)];
                      figures := figures s;
                      global_step := global_step s |}).

(** [self.log_dict({...})]: the entries in the order of the dict. *)
Definition log_dict (entries : list (string * Q)) : Eff unit :=
  fun s => Ok (tt, {| logged := logged s ++ entries;
                      figures := figures s;
                      global_step := global_step s |}).

(** [self.logger.experiment.add_figure(tag, fig, self.global_step)]. *)
Definition add_figure (tag : string) (fig : figure) : Eff unit :=
  fun s => Ok (tt, {| logged := logged s;
                      figures := figures s ++ [(tag, fig, global_step s)];
                      global_step := global_step s |}).

(** ** The module *)

(** The arguments [PlanningBaselineV0.__init__] passes to
    [model.MultipleTrajectoryPredictionLoss]. *)
Record MultipleTrajectoryPredictionLoss : Type := {
  loss_alpha : Q;
  loss_M : Z;
  loss_num_pts : Z;
  distance_type : string
}.

(** A value [argparse] stores under an attribute. *)
Inductive arg_value : Type :=
| IntValue (z : Z)
| FloatValue (q : Q)
| OtherValue (text : string).

(** What [parse_args] hands to the main program: the attributes by name.
    Besides those of the options main.py declares, it holds whatever
    [pl.Trainer.add_argparse_args] (line 101) has added. *)
Definition Namespace : Type := string -> option arg_value.

Section PlanningBaseline.

(** model.py and data.py are collaborators: the image type, the network
    [PlaningNetwork(M, num_pts)] and the forward pass of the loss are
    taken as given.  The network returns [(pred_cls, pred_trajectory)],
    the loss [(cls_loss, reg_loss)]. *)
Variable Image : Type.
Variable PlaningNetwork : Z -> Z -> Image -> result (Mat * Mat).
Variable forward :
  MultipleTrajectoryPredictionLoss ->
  Mat -> Mat -> Tensor3 -> result (Q * Vec).

Record PlanningBaselineV0 : Type := {
  M : Z;
  num_pts : Z;
  mtp_alpha : Q;
  lr : Q;
  net : Image -> result (Mat * Mat);
  mtp_loss : MultipleTrajectoryPredictionLoss
}.

Record Batch : Type := {
  input_img : Image;
  future_poses : Tensor3
}.

Definition __init__ (M num_pts : Z) (mtp_alpha lr : Q)
  : PlanningBaselineV0 :=
  {| M := M;
     num_pts := num_pts;
     mtp_alpha := mtp_alpha;
     lr := lr;
     net := PlaningNetwork M num_pts;
     mtp_loss := {| loss_alpha := mtp_alpha;
                    loss_M := M;
                    loss_num_pts := num_pts;
                    distance_type := "angle" |} |}.

(** The model built by the main program (line 110) from [args.M],
    [args.num_pts], [args.mtp_alpha] and [args.lr]; [None] when one of
    them is missing (an AttributeError) or is not of the type its option
    declares (which [parse_args] excludes). *)
Definition main_model (args : Namespace) : option PlanningBaselineV0 :=
  match args "M"%string, args "num_pts"%string,
        args "mtp_alpha"%string, args "lr"%string with
  | Some (IntValue m), Some (IntValue p),
    Some (FloatValue a), Some (FloatValue l) => Some (__init__ m p a l)
  | _, _, _, _ => None
  end.

Local Open Scope eff_scope.

(** One [ax.plot] of hypothesis [k] (lines 54-56). *)
Definition plot_pred (pred_trajectory : Tensor4) (pred_cls : Mat)
           (k : nat) (lbl : string) : result line2d :=
  let* y := numpy.column4 pred_trajectory 0 k 1 in
  let* x := numpy.column4 pred_trajectory 0 k 0 in
  let* c := numpy.item2 pred_cls 0 k in
  Ok {| xdata := numpy.neg y; ydata := x; fmt := "o-";
        label := (lbl, Some c) |}.

(** The plotting branch (lines 51-61).  [plt.legend], [plt.tight_layout]
    and [plt.close] leave nothing in [state]. *)
Definition plot (self : PlanningBaselineV0) (pred_cls pred_trajectory : Mat)
           (labels : Tensor3) : Eff unit :=
  pred_trajectory <- lift (torch.reshape ValueError (M self) (num_pts self)
                                         (concat pred_trajectory)) ;;
  l0 <- lift (plot_pred pred_trajectory pred_cls 0 "pred0 - conf %.3f") ;;
  l1 <- lift (plot_pred pred_trajectory pred_cls 1 "pred1 - conf %.3f") ;;
  l2 <- lift (plot_pred pred_trajectory pred_cls 2 "pred2 - conf %.3f") ;;
  gy <- lift (numpy.column3 labels 0 1) ;;
  gx <- lift (numpy.column3 labels 0 0) ;;
  add_figure "test"
             [l0; l1; l2;
              {| xdata := numpy.neg gy; ydata := gx; fmt := "o-";
                 label := ("gt"%string, None) |}].

(** The value of line 63. *)
Definition objective (mtp_alpha cls_loss : Q) (reg_loss : Vec) : Q :=
  (cls_loss + mtp_alpha * torch.mean reg_loss)%Q.

Definition training_step (self : PlanningBaselineV0) (batch : Batch)
           (batch_idx : Z) : Eff Q :=
  let inputs := input_img batch in
  let labels := future_poses batch in
  ' (pred_cls, pred_trajectory) <- lift (net self inputs) ;;
  ' (cls_loss, reg_loss) <-
      lift (forward (mtp_loss self) pred_cls pred_trajectory labels) ;;
  log "loss/cls" cls_loss ;;
  log "loss/reg" (torch.mean reg_loss) ;;
  reg_x <- lift (numpy.item reg_loss 0) ;;
  log "loss/reg_x" reg_x ;;
  reg_y <- lift (numpy.item reg_loss 1) ;;
  log "loss/reg_y" reg_y ;;
  reg_z <- lift (numpy.item reg_loss 2) ;;
  log "loss/reg_z" reg_z ;;
  (if (batch_idx mod 10 =? 0)%Z
   then plot self pred_cls pred_trajectory labels
   else ret tt) ;;
  ret (objective (mtp_alpha self) cls_loss reg_loss).

(** Lines 74-87 of [validation_step], up to the values it logs; the last
    two components are [pred_label] and [best_match]. *)
Definition validation_metric (M num_pts : Z) (pred_cls pred_trajectory : Mat)
           (labels : Tensor3) : result (Q * Q * list nat * list nat) :=
  let bs := length pred_cls in
  let* pred_trajectory :=
    torch.reshape RuntimeError M num_pts (concat pred_trajectory) in
  let* pred_label := torch.argmax pred_cls in
  let* pred_trajectory_single :=
    torch.gather pred_trajectory bs pred_label in
  let* l2_dist := torch.mse_loss pred_trajectory_single labels in
  let gt_trajectory_M := torch.expand_M M labels in
  let* sq := torch.mse_none4 pred_trajectory gt_trajectory_M in
  let l2_distances := torch.sum_23 sq in
  let* best_match := torch.argmin l2_distances in
  let* hits := torch.count_eq best_match pred_label in
  let cls_acc := (qnat hits / qnat bs)%Q in
  Ok (l2_dist, cls_acc, pred_label, best_match).

Definition validation_step (self : PlanningBaselineV0) (batch : Batch)
           (batch_idx : Z) : Eff unit :=
  let inputs := input_img batch in
  let labels := future_poses batch in
  ' (pred_cls, pred_trajectory) <- lift (net self inputs) ;;
  ' (l2_dist, cls_acc, _, _) <-
      lift (validation_metric (M self) (num_pts self)
                              pred_cls pred_trajectory labels) ;;
  log_dict [("val/l2_dist"%string, l2_dist);
            ("val/cls_acc"%string, cls_acc)].

End PlanningBaseline.

(** ** What the spec says of the indices and distances *)

Local Open Scope Q_scope.

(** [i] is the index of the first maximal (minimal) value of [row]. *)
Definition is_first_argmax (row : Vec) (i : nat) : Prop :=
  (i < length row)%nat /\
  (forall j, (j < length row)%nat -> nth j row 0 <= nth i row 0) /\
  (forall j, (j < i)%nat -> nth j row 0 < nth i row 0).

Definition is_first_argmin (row : Vec) (i : nat) : Prop :=
  (i < length row)%nat /\
  (forall j, (j < length row)%nat -> nth i row 0 <= nth j row 0) /\
  (forall j, (j < i)%nat -> nth i row 0 < nth j row 0).

(** ** Shapes *)

Definition shape2 {A : Type} (a b : nat) (m : list (list A)) : Prop :=
  length m = a /\ Forall (fun r => length r = b) m.

Definition shape3 {A : Type} (a b c : nat) (t : list (list (list A))) : Prop :=
  length t = a /\ Forall (shape2 b c) t.

Definition shape4 {A : Type} (a b c d : nat)
           (t : list (list (list (list A)))) : Prop :=
  length t = a /\ Forall (shape3 b c d) t.

(** ** Distances, in the words of the spec *)

(** Sum over the axes of the squared differences of two points. *)
Fixpoint point_sq_dist (a b : Vec) : Q :=
  match a, b with
  | x :: a', y :: b' => (x - y) * (x - y) + point_sq_dist a' b'
  | _, _ => 0
  end.

(** L2 mode: the sum of the squared point-wise differences over all points
    and axes of two trajectories. *)
Fixpoint l2_distance (a b : Mat) : Q :=
  match a, b with
  | p :: a', q :: b' => point_sq_dist p q + l2_distance a' b'
  | _, _ => 0
  end.

(** The same, summed over the examples of a batch. *)
Fixpoint batch_sq_error (a b : Tensor3) : Q :=
  match a, b with
  | t :: a', g :: b' => l2_distance t g + batch_sq_error a' b'
  | _, _ => 0
  end.

(** The trajectories picked by an index vector, one per example. *)
Definition select (t : Tensor4) (idx : list nat) : Tensor3 :=
  map (fun ew => nth (snd ew) (fst ew) []) (combine t idx).

(** [b] is the best match of the hypotheses [hyps] for the ground truth
    [gt] (no hypothesis is closer) and the first such. *)
Definition is_best_match (hyps : Tensor3) (gt : Mat) (b : nat) : Prop :=
  (b < length hyps)%nat /\
  (forall j, (j < length hyps)%nat ->
             l2_distance (nth b hyps []) gt <= l2_distance (nth j hyps []) gt) /\
  (forall j, (j < length hyps)%nat ->
             l2_distance (nth j hyps []) gt == l2_distance (nth b hyps []) gt ->
             (b <= j)%nat).

(** The number of examples on which two index vectors agree. *)
Definition agreements (B : nat) (a b : list nat) : nat :=
  length (filter (fun i => Nat.eqb (nth i a 0%nat) (nth i b 0%nat)) (seq 0 B)).

(** ** Well-shaped batches *)

(** The invariants of the data model: [B] confidence vectors of length
    [M], [B * M * num_pts * 3] predicted coordinates, [B] ground-truth
    trajectories of [num_pts] points with 3 coordinates. *)
Record well_shaped (M num_pts : Z) (pred_cls pred_trajectory : Mat)
       (labels : Tensor3) : Prop := {
  ws_M : (0 < M)%Z;
  ws_num_pts : (0 < num_pts)%Z;
  ws_cls : shape2 (length pred_cls) (Z.to_nat M) pred_cls;
  ws_traj : length (concat pred_trajectory) =
            (length pred_cls * Z.to_nat M * Z.to_nat num_pts * 3)%nat;
  ws_labels : shape3 (length pred_cls) (Z.to_nat num_pts) 3 labels
}.

(** ** The Best-Hypothesis Selector of the loss

    [model.MultipleTrajectoryPredictionLoss] is not among the sources at
    hand; its selector is written down from sections 4.1 and 4.2 of the
    specification.  The heading angle of a horizontal displacement is a
    transcendental function of its two coordinates and stays a parameter
    ([heading]); the specification leaves open whether headings are taken
    between consecutive points or from the origin ([convention]). *)
Module MTPLoss.

(** Modelled from the spec: the point-pair convention of the missing
    distance metric, "for each consecutive pair of points (or point
    relative to origin, depending on convention)". *)
Inductive convention : Type :=
| ConsecutivePairs
| RelativeToOrigin.

Section Angle.

Variable heading : Q -> Q -> Q.
Variable conv : convention.

(** Modelled from the spec: the distance metric of
    model.MultipleTrajectoryPredictionLoss is missing; "for each
    consecutive pair of points (or point relative to origin, depending
    on convention) compute the heading angle in the horizontal plane".
    The horizontal coordinates of a point are its first two. *)
Definition headings (t : Mat) : Vec :=
  match conv with
  | RelativeToOrigin =>
      map (fun pt => heading (nth 0 pt 0) (nth 1 pt 0)) t
  | ConsecutivePairs =>
      map (fun ab => heading (nth 0 (snd ab) 0 - nth 0 (fst ab) 0)
                             (nth 1 (snd ab) 0 - nth 1 (fst ab) 0))
          (combine t (tl t))
  end.

(** Modelled from the spec: the angle mode of the missing distance
    metric, "the sum of squared angular differences between the two
    trajectories' headings". *)
Definition angle_distance (a b : Mat) : Q :=
  point_sq_dist (headings a) (headings b).

(** Modelled from the spec: the mode selection of the missing loss,
    "distance_type: one of angle, l2"; any other value is an invalid
    configuration. *)
Definition distance (distance_type : string)
  : option (Mat -> Mat -> Q) :=
  if String.eqb distance_type "angle" then Some angle_distance
  else if String.eqb distance_type "l2" then Some l2_distance
  else None.

End Angle.

(** Modelled from the spec: the argmin of the missing selector, "the
    index in [0, M) of the minimum-distance hypothesis, ties broken by
    first-occurring minimum": the first index whose value no other value
    undercuts. *)
Definition first_min (row : Vec) : nat :=
  match find (fun i => forallb (Qle_bool (nth i row 0)) row)
             (seq 0 (length row)) with
  | Some i => i
  | None => 0%nat
  end.

(** Modelled from the spec: the Best-Hypothesis Selector of the missing
    loss, "compute the chosen distance metric between each of the M
    hypotheses and the (broadcast) ground truth, producing a B x M
    distance matrix, then return, per example, the index of the
    minimum-distance hypothesis". *)
Definition best_hypothesis_selector (dist : Mat -> Mat -> Q)
           (preds : Tensor4) (gts : Tensor3) : list nat :=
  map (fun eg => first_min (map (fun h => dist h (snd eg)) (fst eg)))
      (combine preds gts).

(** Modelled from the spec: the selector of a loss object, configured
    once with its distance type. *)
Definition selector (heading : Q -> Q -> Q) (conv : convention)
           (loss : MultipleTrajectoryPredictionLoss)
           (preds : Tensor4) (gts : Tensor3) : option (list nat) :=
  match distance heading conv (distance_type loss) with
  | Some dist => Some (best_hypothesis_selector dist preds gts)
  | None => None
  end.

End MTPLoss.

(** ** What [validation_step] leaves behind *)

(** The state after [log_dict] of the two validation metrics. *)
Definition with_metrics (s : state) (l2_dist cls_acc : Q) : state :=
  {| logged := logged s ++ [("val/l2_dist"%string, l2_dist);
                            ("val/cls_acc"%string, cls_acc)];
     figures := figures s;
     global_step := global_step s |}.

(** The loss object with another distance type. *)
Definition with_distance_type (loss : MultipleTrajectoryPredictionLoss)
           (dt : string) : MultipleTrajectoryPredictionLoss :=
  {| loss_alpha := loss_alpha loss;
     loss_M := loss_M loss;
     loss_num_pts := loss_num_pts loss;
     distance_type := dt |}.

(** ** Two concrete batches *)

(** One example, two hypotheses of two points: hypothesis 0 is the ground
    truth stretched by 2 (same direction everywhere, twice as far),
    hypothesis 1 is the ground truth itself. *)
Definition stretched_pred_cls : Mat := [[0; 0]].
Definition stretched_pred_trajectory : Mat :=
  [[2; 0; 0;  4; 0; 0;    1; 0; 0;  2; 0; 0]].
Definition stretched_labels : Tensor3 := [[[1; 0; 0]; [2; 0; 0]]].

(** One example with three hypotheses of two points: hypothesis 0 is the
    ground truth, hypotheses 1 and 2 are far away; the network is
    confident in hypothesis 0. *)
Module Example.

Definition labels : Tensor3 := [[[0; 0; 0]; [1; 0; 0]]].
Definition pred_cls : Mat := [[10; 0; 0]].
Definition pred_trajectory : Mat :=
  [[0; 0; 0;  1; 0; 0;
    100; 100; 100;  100; 100; 100;
    100; 100; 100;  100; 100; 100]].

(** A network that answers with its first [M] hypotheses. *)
Definition network (M num_pts : Z) (img : unit) : result (Mat * Mat) :=
  Ok (map (firstn (Z.to_nat M)) pred_cls,
      map (firstn (Z.to_nat (M * 2 * 3))) pred_trajectory).

Definition loss (l : MultipleTrajectoryPredictionLoss)
           (pc ptj : Mat) (gt : Tensor3) : result (Q * Vec) :=
  Ok (1 # 2, [1; 2; 3]).

Definition batch : Batch unit :=
  {| input_img := tt; future_poses := labels |}.

Definition start : state :=
  {| logged := []; figures := []; global_step := 7 |}.

Definition module (M : Z) (mtp_alpha : Q) : PlanningBaselineV0 unit :=
  __init__ network M 2 mtp_alpha (1 # 10000).

(** A namespace as [parse_args] could return it, with an option of the
    trainer and an attribute named distance_type besides the four the
    main program reads. *)
Definition namespace : Namespace :=
  fun name =>
    if String.eqb name "M" then Some (IntValue 3)
    else if String.eqb name "num_pts" then Some (IntValue 2)
    else if String.eqb name "mtp_alpha" then Some (FloatValue 1)
    else if String.eqb name "lr" then Some (FloatValue (1 # 10000))
    else if String.eqb name "distance_type" then Some (OtherValue "l2")
    else if String.eqb name "max_epochs" then Some (IntValue 100)
    else None.

End Example.

(** ** The command-line options *)






(** * Properties *)

(** ** The scans of argmin and argmax *)

Lemma Qlt_bool_iff (x y : Q) : Qlt_bool x y = true <-> x < y.
Proof.
  unfold Qlt_bool. rewrite negb_true_iff.
  split; intro H.
  - apply Qnot_le_lt. intro L. apply Qle_bool_iff in L. congruence.
  - destruct (Qle_bool y x) eqn:E; [|reflexivity].
    apply Qle_bool_iff in E. exfalso. apply (Qlt_not_le _ _ H E).
Qed.

Lemma Qlt_bool_false (x y : Q) : Qlt_bool x y = false <-> y <= x.
Proof.
  unfold Qlt_bool. rewrite negb_false_iff. apply Qle_bool_iff.
Qed.

Section Scans.

Import torch.

Lemma argmin_from_spec (v : Vec) :
  forall (pre : Vec) (bi : nat) (b : Q),
    (bi < length pre)%nat ->
    nth bi pre 0 = b ->
    (forall j, (j < length pre)%nat -> b <= nth j pre 0) ->
    (forall j, (j < bi)%nat -> b < nth j pre 0) ->
    is_first_argmin (pre ++ v) (argmin_from bi b (length pre) v).
Proof.
  induction v as [|x t IH]; intros pre bi b Hbi Hb Hle Hlt; simpl.
  - rewrite app_nil_r. subst b. repeat split; auto.
  - replace (pre ++ x :: t) with ((pre ++ [x]) ++ t)
      by (rewrite <- app_assoc; reflexivity).
    replace (S (length pre)) with (length (pre ++ [x]))
      by (rewrite length_app; simpl; lia).
    destruct (Qlt_bool x b) eqn:E.
    + apply Qlt_bool_iff in E.
      apply IH.
      * rewrite length_app; simpl; lia.
      * rewrite app_nth2, Nat.sub_diag by lia. reflexivity.
      * intros j Hj. rewrite length_app in Hj; simpl in Hj.
        destruct (Nat.eq_dec j (length pre)) as [->|Hne].
        -- rewrite app_nth2, Nat.sub_diag by lia. simpl. apply Qle_refl.
        -- rewrite app_nth1 by lia.
           apply Qlt_le_weak, Qlt_le_trans with b; auto. apply Hle; lia.
      * intros j Hj. rewrite app_nth1 by lia.
        apply Qlt_le_trans with b; auto.
    + apply Qlt_bool_false in E.
      apply IH.
      * rewrite length_app; simpl; lia.
      * rewrite app_nth1 by lia. exact Hb.
      * intros j Hj. rewrite length_app in Hj; simpl in Hj.
        destruct (Nat.eq_dec j (length pre)) as [->|Hne].
        -- rewrite app_nth2, Nat.sub_diag by lia. exact E.
        -- rewrite app_nth1 by lia. apply Hle; lia.
      * intros j Hj. rewrite app_nth1 by lia. auto.
Qed.

Lemma argmin1_spec (row : Vec) :
  row <> [] ->
  exists i, argmin1 row = Ok i /\ is_first_argmin row i.
Proof.
  destruct row as [|x t]; [congruence|]; intros _.
  exists (argmin_from 0 x 1 t). split; [reflexivity|].
  apply (argmin_from_spec t [x] (bi:=0)); simpl; auto.
  - intros j Hj. assert (j = 0)%nat as -> by lia. apply Qle_refl.
  - intros j Hj; lia.
Qed.

Lemma argmax_from_argmin (v : Vec) :
  forall bi b i,
    argmax_from bi b i v = argmin_from bi (- b) i (map Qopp v).
Proof.
  induction v as [|x t IH]; intros; simpl; [reflexivity|].
  replace (Qlt_bool (- x) (- b)) with (Qlt_bool b x).
  - destruct (Qlt_bool b x); apply IH.
  - destruct (Qlt_bool b x) eqn:E; symmetry.
    + apply Qlt_bool_iff. apply Qlt_bool_iff in E.
      apply Qopp_lt_compat; exact E.
    + apply Qlt_bool_false. apply Qlt_bool_false in E.
      apply Qopp_le_compat; exact E.
Qed.

Lemma nth_map_opp (row : Vec) (j : nat) :
  nth j (map Qopp row) 0 == - nth j row 0.
Proof.
  destruct (Nat.lt_ge_cases j (length row)) as [H|H].
  - rewrite (nth_indep _ 0 (- 0)) by (rewrite length_map; exact H).
    rewrite map_nth. reflexivity.
  - rewrite !nth_overflow by (try rewrite length_map; exact H). reflexivity.
Qed.

Lemma argmax1_spec (row : Vec) :
  row <> [] ->
  exists i, argmax1 row = Ok i /\ is_first_argmax row i.
Proof.
  intros Hne.
  destruct (argmin1_spec (row:=map Qopp row)) as (i & Hi & Hl & Hmin & Hfst).
  { destruct row; simpl; congruence. }
  exists i. split.
  - destruct row as [|x t]; [congruence|].
    simpl in *. rewrite argmax_from_argmin. exact Hi.
  - rewrite length_map in *. repeat split; auto.
    + intros j Hj. specialize (Hmin j Hj).
      rewrite !nth_map_opp in Hmin.
      apply Qopp_le_compat in Hmin. rewrite !Qopp_involutive in Hmin.
      exact Hmin.
    + intros j Hj. specialize (Hfst j Hj).
      rewrite !nth_map_opp in Hfst.
      apply Qopp_lt_compat in Hfst. rewrite !Qopp_involutive in Hfst.
      exact Hfst.
Qed.

End Scans.

(** ** Shapes of reshaped tensors *)

Section Blocks.

Import torch.
Context {A : Type}.

Lemma chunks_length (k n : nat) :
  forall l : list A, length (chunks k n l) = k.
Proof.
  induction k as [|k IH]; intros l; simpl; [reflexivity|].
  now rewrite IH.
Qed.

Lemma chunks_block_length (k n : nat) :
  forall l : list A,
    (k * n <= length l)%nat ->
    Forall (fun c => length c = n) (chunks k n l).
Proof.
  induction k as [|k IH]; intros l Hl; simpl; constructor.
  - apply firstn_length_le. simpl in Hl. lia.
  - apply IH. rewrite length_skipn. simpl in Hl. lia.
Qed.

Lemma chunks_In (k n : nat) :
  forall (l c : list A) (x : A),
    In c (chunks k n l) -> In x c -> In x l.
Proof.
  induction k as [|k IH]; intros l c x Hc Hx; simpl in Hc; [contradiction|].
  rewrite <- (firstn_skipn n l). apply in_or_app.
  destruct Hc as [<-|Hc]; [left; exact Hx|right].
  eapply IH; eauto.
Qed.

Lemma view_shape (k n : nat) (l : list A) :
  (0 < n)%nat -> length l = (k * n)%nat -> shape2 k n (view n l).
Proof.
  intros Hn Hl. unfold view, shape2.
  rewrite Hl, Nat.div_mul by lia.
  split; [apply chunks_length|].
  apply chunks_block_length. lia.
Qed.

End Blocks.

Lemma reshape_shape (e : exn) (M num_pts : Z) (data : list Q) (B : nat) :
  (0 < M)%Z -> (0 < num_pts)%Z ->
  length data = (B * Z.to_nat M * Z.to_nat num_pts * 3)%nat ->
  exists t, torch.reshape e M num_pts data = Ok t /\
            shape4 B (Z.to_nat M) (Z.to_nat num_pts) 3 t.
Proof.
  intros HM HP Hlen. unfold torch.reshape.
  destruct (Z.leb_spec M 0); [lia|].
  destruct (Z.leb_spec num_pts 0); [lia|]. simpl.
  set (m := Z.to_nat M) in *. set (p := Z.to_nat num_pts) in *.
  assert (0 < m)%nat by (subst m; lia).
  assert (0 < p)%nat by (subst p; lia).
  replace (length data mod (m * p * 3))%nat with 0%nat.
  2:{ rewrite Hlen.
      replace (B * m * p * 3)%nat with (B * (m * p * 3))%nat by lia.
      symmetry. apply Nat.Div0.mod_mul. }
  simpl. eexists; split; [reflexivity|].
  destruct (view_shape (B * m * p) (n:=3) data) as [L3 F3]; [lia|lia|].
  destruct (view_shape (B * m) (n:=p) (torch.view 3 data)) as [L2 F2];
    [lia|lia|].
  destruct (view_shape B (n:=m) (torch.view p (torch.view 3 data)))
    as [L1 F1]; [lia|lia|].
  split; [exact L1|].
  assert (G2 : Forall (shape2 p 3) (torch.view p (torch.view 3 data))).
  { rewrite Forall_forall in *. intros traj Ht. split; [auto|].
    rewrite Forall_forall. intros pt Hpt. apply F3.
    eapply chunks_In; eauto. }
  rewrite Forall_forall in *. intros ex Hex. split; [auto|].
  rewrite Forall_forall. intros traj Ht. apply G2.
  eapply chunks_In; eauto.
Qed.

(** ** Element-wise operations on well-shaped operands *)

Section Elementwise.

Context {A B C : Type}.

Lemma mapM_spec (f : A -> result B) (R : A -> B -> Prop) (dx : A) (dy : B) :
  forall l : list A,
    (forall x, In x l -> exists y, f x = Ok y /\ R x y) ->
    exists r, mapM f l = Ok r /\ length r = length l /\
              forall i, (i < length l)%nat -> R (nth i l dx) (nth i r dy).
Proof.
  induction l as [|x t IH]; intros H; simpl.
  - exists []. repeat split; auto. simpl; intros; lia.
  - destruct (H x (or_introl eq_refl)) as (y & Hy & Ry).
    destruct IH as (r & Hr & Lr & Nr); [intros; apply H; now right|].
    exists (y :: r). rewrite Hy, Hr. simpl. repeat split; [lia|].
    intros [|i] Hi; auto. apply Nr. lia.
Qed.

Lemma zipM_spec (f : A -> B -> result C) (R : A -> B -> C -> Prop)
      (dx : A) (dy : B) (dz : C) :
  forall (xs : list A) (ys : list B),
    length xs = length ys ->
    (forall i, (i < length xs)%nat ->
               exists z, f (nth i xs dx) (nth i ys dy) = Ok z /\
                         R (nth i xs dx) (nth i ys dy) z) ->
    exists r, zipM f xs ys = Ok r /\ length r = length xs /\
              forall i, (i < length xs)%nat ->
                        R (nth i xs dx) (nth i ys dy) (nth i r dz).
Proof.
  induction xs as [|x xs IH]; intros [|y ys] L H; simpl in L; try discriminate.
  - exists []. repeat split; auto. simpl; intros; lia.
  - destruct (H 0%nat) as (z & Hz & Rz); [simpl; lia|]. simpl in Hz, Rz.
    destruct (IH ys) as (r & Hr & Lr & Nr); [lia| |].
    { intros i Hi. apply (H (S i)). simpl; lia. }
    exists (z :: r). simpl. rewrite Hz, Hr. simpl. repeat split; [lia|].
    intros [|i] Hi; auto. apply Nr. simpl in Hi; lia.
Qed.

Lemma zipM_length (f : A -> B -> result C) :
  forall (xs : list A) (ys : list B) (r : list C),
    zipM f xs ys = Ok r -> length xs = length r /\ length ys = length r.
Proof.
  induction xs as [|x xs IH]; intros [|y ys] r H; simpl in H;
    try discriminate.
  - injection H as <-. auto.
  - destruct (f x y); [|discriminate]. simpl in H.
    destruct (zipM f xs ys) eqn:E; [|discriminate]. simpl in H.
    injection H as <-. apply IH in E. simpl. lia.
Qed.

Lemma mapM_length (f : A -> result B) :
  forall (l : list A) (r : list B), mapM f l = Ok r -> length r = length l.
Proof.
  induction l as [|x t IH]; intros r H; simpl in H.
  - injection H as <-. reflexivity.
  - destruct (f x); [|discriminate]. simpl in H.
    destruct (mapM f t) eqn:E; [|discriminate]. simpl in H.
    injection H as <-. simpl. f_equal. now apply IH.
Qed.

End Elementwise.

Lemma Forall_nth_shape {A : Type} (P : A -> Prop) (l : list A) (d : A) (i : nat) :
  Forall P l -> (i < length l)%nat -> P (nth i l d).
Proof.
  intros F Hi. rewrite Forall_forall in F. apply F, nth_In, Hi.
Qed.

Lemma sum_app (u v : Vec) : torch.sum (u ++ v) == torch.sum u + torch.sum v.
Proof.
  induction u as [|x u IH]; simpl.
  - ring.
  - rewrite IH. ring.
Qed.

Lemma point_sq (a : Vec) :
  forall b, length a = length b ->
    exists d, zipM torch.sqdiff a b = Ok d /\ length d = length a /\
              torch.sum d == point_sq_dist a b.
Proof.
  induction a as [|x a IH]; intros [|y b] L; simpl in L; try discriminate.
  - exists []. simpl. repeat split; reflexivity.
  - destruct (IH b) as (d & Hd & Ld & Sd); [lia|].
    exists ((x - y) * (x - y) :: d). simpl. rewrite Hd. simpl.
    repeat split; [lia|]. rewrite Sd. reflexivity.
Qed.

Lemma traj_sq (n c : nat) (a : Mat) :
  forall g, shape2 n c a -> shape2 n c g ->
    exists d, zipM (zipM torch.sqdiff) a g = Ok d /\ shape2 n c d /\
              torch.sum (concat d) == l2_distance a g.
Proof.
  revert n. induction a as [|p a IH]; intros n [|q g] [La Fa] [Lg Fg];
    simpl in *; try lia.
  - exists []. repeat split; auto; simpl; try reflexivity; lia.
  - inversion Fa as [|? ? Hp Fa']; inversion Fg as [|? ? Hq Fg']; subst.
    destruct (point_sq p q) as (d0 & H0 & L0 & S0); [congruence|].
    destruct (IH (length a) g) as (d & Hd & [Ld Fd] & Sd);
      [split; auto|split; auto; lia|].
    exists (d0 :: d). rewrite H0, Hd. simpl. repeat split.
    + simpl; lia.
    + constructor; auto.
    + rewrite sum_app, S0, Sd. reflexivity.
Qed.

Lemma concat_shape_length {A : Type} (n c : nat) (d : list (list A)) :
  shape2 n c d -> length (concat d) = (n * c)%nat.
Proof.
  revert n. induction d as [|r d IH]; intros n [L F]; simpl in *.
  - subst n. reflexivity.
  - inversion F; subst. rewrite length_app, (IH (length d)); [|split; auto].
    simpl. lia.
Qed.

Lemma batch_sq (B p c : nat) (a : Tensor3) :
  forall b, shape3 B p c a -> shape3 B p c b ->
    exists D, torch.mse_none3 a b = Ok D /\
              length (concat (concat D)) = (B * p * c)%nat /\
              torch.sum (concat (concat D)) == batch_sq_error a b.
Proof.
  unfold torch.mse_none3.
  revert B. induction a as [|t a IH]; intros B [|g b] [La Fa] [Lb Fb];
    simpl in *; try lia.
  - exists []. subst B. repeat split; simpl; reflexivity.
  - inversion Fa as [|? ? Ht Fa']; inversion Fb as [|? ? Hg Fb']; subst.
    destruct (@traj_sq p c t g Ht Hg) as (d0 & H0 & Sh0 & S0).
    destruct (IH (length a) b) as (D & HD & LD & SD);
      [split; auto|split; auto; lia|].
    exists (d0 :: D). rewrite H0, HD. simpl. repeat split.
    + rewrite concat_app, length_app, LD, (concat_shape_length Sh0). apply eq_sym, Nat.mul_add_distr_r.
    + rewrite concat_app, sum_app, S0, SD. reflexivity.
Qed.

Lemma hyps_sq (m p c : nat) (hyps : Tensor3) (g : Mat) :
  shape3 m p c hyps -> shape2 p c g ->
  exists S, torch.mse_none3 hyps (repeat g m) = Ok S /\ length S = m /\
            forall j, (j < m)%nat ->
              torch.sum (concat (nth j S [])) == l2_distance (nth j hyps []) g.
Proof.
  intros [Lh Fh] Hg. unfold torch.mse_none3.
  destruct (zipM_spec (zipM (zipM torch.sqdiff))
              (fun x y z => torch.sum (concat z) == l2_distance x y)
              [] g [] hyps (repeat g m)) as (S & HS & LS & NS).
  - rewrite repeat_length. exact Lh.
  - intros j Hj. rewrite nth_repeat.
    destruct (@traj_sq p c (nth j hyps []) g) as (d & Hd & _ & Sd);
      auto.
    + apply Forall_nth_shape; auto.
    + exists d; auto.
  - exists S. repeat split; auto; [lia|].
    intros j Hj. specialize (NS j). rewrite nth_repeat in NS.
    apply NS. lia.
Qed.

Lemma first_argmin_best_match (row : Vec) (hyps : Tensor3) (gt : Mat) (b : nat) :
  length row = length hyps ->
  (forall j, (j < length hyps)%nat ->
             nth j row 0 == l2_distance (nth j hyps []) gt) ->
  is_first_argmin row b -> is_best_match hyps gt b.
Proof.
  intros L E (Hb & Hmin & Hfst). rewrite L in *.
  repeat split; auto.
  - intros j Hj. rewrite <- !E by assumption. apply Hmin. exact Hj.
  - intros j Hj Heq.
    destruct (Nat.le_gt_cases b j) as [|Hlt]; [assumption|exfalso].
    specialize (Hfst j Hlt). rewrite !E in Hfst by assumption.
    rewrite Heq in Hfst. exact (Qlt_irrefl _ Hfst).
Qed.

Lemma select_nth (t : Tensor4) :
  forall (idx : list nat) (i : nat),
    length t = length idx ->
    nth i (select t idx) [] = nth (nth i idx 0%nat) (nth i t []) [].
Proof.
  unfold select.
  induction t as [|ex t IH]; intros [|w idx] i L; simpl in L; try discriminate.
  - destruct i; reflexivity.
  - destruct i; simpl; [reflexivity|]. apply IH. lia.
Qed.

Lemma select_length (t : Tensor4) (idx : list nat) :
  length t = length idx -> length (select t idx) = length t.
Proof.
  intros L. unfold select. rewrite length_map, length_combine. lia.
Qed.

Lemma gather_select (B m p c : nat) (t : Tensor4) (idx : list nat) :
  shape4 B m p c t -> length idx = B -> (0 < B)%nat ->
  (forall i, (i < B)%nat -> (nth i idx 0 < m)%nat) ->
  torch.gather t B idx = Ok (select t idx) /\ shape3 B p c (select t idx).
Proof.
  intros [Lt Ft] Li HB Hi.
  assert (G : torch.gather t B idx
              = zipM (fun i w =>
                        let* ex := of_option IndexError (nth_error t i) in
                        of_option IndexError (nth_error ex w))
                     (seq 0 B) idx)
    by (unfold torch.gather; destruct B; [lia|reflexivity]).
  rewrite G. clear G.
  destruct (zipM_spec
              (fun i w =>
                 let* ex := of_option IndexError (nth_error t i) in
                 of_option IndexError (nth_error ex w))
              (fun i w z => z = nth w (nth i t []) [])
              0%nat 0%nat [] (seq 0 B) idx) as (r & Hr & Lr & Nr).
  - rewrite length_seq. congruence.
  - intros i Hlt. rewrite length_seq in Hlt. rewrite seq_nth by exact Hlt.
    simpl. rewrite (nth_error_nth' t []) by lia. simpl.
    assert (Sh : shape3 m p c (nth i t [])) by (apply Forall_nth_shape; auto; lia).
    rewrite (nth_error_nth' (nth i t []) []) by (destruct Sh as [-> _]; auto).
    simpl. eauto.
  - rewrite length_seq in *.
    assert (r = select t idx) as ->.
    { apply nth_ext with (d:=[]) (d':=[]).
      - rewrite select_length; congruence.
      - intros i Hlt. rewrite Lr in Hlt. rewrite (Nr i Hlt).
        rewrite seq_nth by exact Hlt. simpl.
        rewrite select_nth by congruence. reflexivity. }
    split; [exact Hr|]. split; [exact Lr|].
    rewrite Forall_forall. intros x Hx.
    destruct (In_nth _ _ [] Hx) as (i & Hlt & <-). rewrite Lr in Hlt.
    rewrite select_nth by congruence.
    assert (Sh : shape3 m p c (nth i t [])) by (apply Forall_nth_shape; auto; lia).
    destruct Sh as [Lm Fm]. apply Forall_nth_shape; auto.
    rewrite Lm. auto.
Qed.

Lemma filter_map_length {A B : Type} (f : B -> bool) (g : A -> B) (l : list A) :
  length (filter f (map g l)) = length (filter (fun x => f (g x)) l).
Proof.
  induction l as [|x l IH]; simpl; [reflexivity|].
  destruct (f (g x)); simpl; congruence.
Qed.

Lemma count_eq_agreements (a : list nat) :
  forall b, length a = length b ->
    torch.count_eq a b = Ok (agreements (length a) a b).
Proof.
  unfold torch.count_eq, agreements.
  induction a as [|x a IH]; intros [|y b] L; simpl in L; try discriminate.
  - reflexivity.
  - specialize (IH b ltac:(lia)).
    cbn [zipM rbind]. 
    destruct (zipM (fun x0 y0 : nat => Ok (x0 =? y0)%nat) a b) as [e|e'];
      [|discriminate].
    cbn [rbind] in *. injection IH as IH.
    f_equal. cbn [length seq filter nth].
    rewrite <- seq_shift.
    destruct (x =? y)%nat; cbn [length];
      rewrite filter_map_length, IH; reflexivity.
Qed.

Lemma agreements_le (B : nat) (a b : list nat) : (agreements B a b <= B)%nat.
Proof.
  unfold agreements.
  etransitivity; [apply filter_length_le|]. rewrite length_seq. apply le_n.
Qed.

Lemma nth_map_in {A B : Type} (f : A -> B) (d : A) (d' : B) :
  forall (l : list A) (i : nat),
    (i < length l)%nat -> nth i (map f l) d' = f (nth i l d).
Proof.
  induction l as [|x l IH]; intros [|i] H; simpl in *; try lia; auto.
  apply IH. lia.
Qed.

(** ** The validation metric on a well-shaped batch *)

Lemma validation_metric_spec (M num_pts : Z) (pred_cls pred_trajectory : Mat)
      (labels : Tensor3) :
  well_shaped M num_pts pred_cls pred_trajectory labels ->
  pred_cls <> [] ->
  let B := length pred_cls in
  exists pt l2_dist cls_acc pred_label best_match,
    torch.reshape RuntimeError M num_pts (concat pred_trajectory) = Ok pt /\
    shape4 B (Z.to_nat M) (Z.to_nat num_pts) 3 pt /\
    validation_metric M num_pts pred_cls pred_trajectory labels
      = Ok (l2_dist, cls_acc, pred_label, best_match) /\
    length pred_label = B /\
    length best_match = B /\
    (forall i, (i < B)%nat ->
               is_first_argmax (nth i pred_cls []) (nth i pred_label 0%nat)) /\
    (forall i, (i < B)%nat ->
               is_best_match (nth i pt []) (nth i labels [])
                             (nth i best_match 0%nat)) /\
    l2_dist == batch_sq_error (select pt pred_label) labels
               / qnat (B * Z.to_nat num_pts * 3) /\
    cls_acc = qnat (agreements B best_match pred_label) / qnat B.
Proof.
  intros [HM HP [_ Fc] Ht Hl] Hne B.
  assert (HB : (0 < B)%nat)
    by (subst B; destruct pred_cls; [congruence|simpl; lia]).
  set (m := Z.to_nat M) in *. set (p := Z.to_nat num_pts) in *.
  assert (Hm : (0 < m)%nat) by (subst m; lia).
  destruct (reshape_shape RuntimeError (concat pred_trajectory) B HM HP Ht)
    as (pt & Hpt & Shpt).
  fold m p in Shpt.
  (* pred_label *)
  destruct (mapM_spec torch.argmax1 is_first_argmax [] 0%nat pred_cls)
    as (pl & Hpl & Lpl & Npl).
  { intros row Hrow. apply argmax1_spec.
    rewrite Forall_forall in Fc. specialize (Fc row Hrow).
    destruct row; simpl in Fc; [lia|congruence]. }
  assert (Hlt : forall i, (i < B)%nat -> (nth i pl 0 < m)%nat).
  { intros i Hi. destruct (Npl i Hi) as [Hb _].
    rewrite (Forall_nth_shape [] Fc Hi) in Hb. exact Hb. }
  (* pred_trajectory_single and l2_dist *)
  destruct (gather_select pl Shpt Lpl HB Hlt) as [Hg Shg].
  destruct (batch_sq Shg Hl) as (D & HD & LD & SD).
  (* l2_distances *)
  destruct Shpt as [Lpt Fpt]. destruct Hl as [Ll Fl].
  destruct (zipM_spec torch.mse_none3
              (fun hyps gm S =>
                 length S = m /\
                 forall j, (j < m)%nat ->
                   torch.sum (concat (nth j S []))
                   == l2_distance (nth j hyps []) (nth 0 gm []))
              [] (repeat [] m) [] pt (torch.expand_M M labels))
    as (sq & Hsq & Lsq & Nsq).
  { unfold torch.expand_M. rewrite length_map. lia. }
  { intros i Hi. unfold torch.expand_M. fold m.
    rewrite (nth_map_in _ []) by lia.
    destruct (@hyps_sq m p 3 (nth i pt []) (nth i labels [])) as (S & HS & LS & NS).
    - apply Forall_nth_shape; auto.
    - apply Forall_nth_shape; auto; lia.
    - exists S. repeat split; auto.
      intros j Hj. rewrite NS by exact Hj.
      destruct m; [lia|]. reflexivity. }
  (* best_match *)
  destruct (mapM_spec torch.argmin1 is_first_argmin [] 0%nat (torch.sum_23 sq))
    as (bm & Hbm & Lbm & Nbm).
  { intros row Hrow. apply argmin1_spec.
    unfold torch.sum_23 in Hrow. apply in_map_iff in Hrow.
    destruct Hrow as (S & <- & HS).
    destruct (In_nth _ _ [] HS) as (i & Hi & <-).
    destruct (Nsq i) as [LS _]; [lia|].
    destruct (nth i sq []); simpl in *; [lia|congruence]. }
  unfold torch.sum_23 in Lbm. rewrite length_map in Lbm.
  assert (Hval : validation_metric M num_pts pred_cls pred_trajectory labels
                 = Ok (torch.mean (concat (concat D)),
                       qnat (agreements B bm pl) / qnat B, pl, bm)).
  { unfold validation_metric, torch.mse_loss, torch.mse_none4,
      torch.argmax, torch.argmin.
    fold B. rewrite Hpt. cbn [rbind]. rewrite Hpl. cbn [rbind].
    rewrite Hg. cbn [rbind]. rewrite HD. cbn [rbind].
    rewrite Hsq. cbn [rbind]. rewrite Hbm. cbn [rbind].
    rewrite count_eq_agreements by lia. cbn [rbind].
    replace (length bm) with B by lia. reflexivity. }
  assert (Hbest : forall i, (i < B)%nat ->
                    is_best_match (nth i pt []) (nth i labels []) (nth i bm 0%nat)).
  { intros i Hi.
    assert (Hi' : (i < length (torch.sum_23 sq))%nat)
      by (unfold torch.sum_23; rewrite length_map; lia).
    specialize (Nbm i Hi').
    destruct (Nsq i) as [LS NS]; [lia|].
    assert (Sh : shape3 m p 3 (nth i pt []))
      by (apply Forall_nth_shape; auto; lia).
    destruct Sh as [Lh _].
    unfold torch.sum_23 in Nbm. rewrite (nth_map_in _ []) in Nbm by lia.
    apply first_argmin_best_match with (3:=Nbm).
    - rewrite length_map. lia.
    - intros j Hj. rewrite (nth_map_in _ []) by lia.
      rewrite NS by lia. unfold torch.expand_M. fold m.
      rewrite (nth_map_in _ []) by lia.
      destruct m; [lia|]. reflexivity. }
  assert (Hl2 : torch.mean (concat (concat D))
                == batch_sq_error (select pt pl) labels / qnat (B * p * 3)).
  { unfold torch.mean. rewrite SD, LD. reflexivity. }
  exists pt, (torch.mean (concat (concat D))),
    (qnat (agreements B bm pl) / qnat B), pl, bm.
  split; [exact Hpt|]. split; [split; assumption|].
  split; [exact Hval|]. split; [exact Lpl|]. split; [lia|].
  split; [exact Npl|]. split; [exact Hbest|]. split; [exact Hl2|reflexivity].
Qed.

Lemma find_first (P : nat -> bool) (i : nat) :
  forall n s, (s <= i < s + n)%nat -> P i = true ->
              (forall j, (s <= j < i)%nat -> P j = false) ->
              find P (seq s n) = Some i.
Proof.
  induction n as [|n IH]; intros s Hi Pi Hj; simpl; [lia|].
  destruct (Nat.eq_dec s i) as [->|Hne].
  - now rewrite Pi.
  - rewrite (Hj s) by lia. apply IH; auto; try lia.
    intros j Hr. apply Hj. lia.
Qed.

Lemma first_min_best_match (hyps : Tensor3) (gt : Mat) (b : nat) :
  is_best_match hyps gt b ->
  MTPLoss.first_min (map (fun h => l2_distance h gt) hyps) = b.
Proof.
  intros (Hb & Hmin & Hfst). unfold MTPLoss.first_min.
  set (row := map (fun h => l2_distance h gt) hyps).
  assert (Lr : length row = length hyps) by (subst row; apply length_map).
  assert (Nr : forall j, (j < length hyps)%nat ->
                         nth j row 0 = l2_distance (nth j hyps []) gt).
  { intros j Hj. subst row. now rewrite (nth_map_in _ []). }
  rewrite (find_first _ (i:=b)); auto.
  - lia.
  - apply forallb_forall. intros x Hx.
    destruct (In_nth _ _ 0 Hx) as (j & Hj & <-).
    apply Qle_bool_iff. rewrite !Nr by lia. apply Hmin. lia.
  - intros j Hj.
    destruct (forallb _ row) eqn:E; [exfalso|reflexivity].
    rewrite forallb_forall in E.
    specialize (E (nth b row 0)). rewrite !Nr in E by lia.
    apply Qle_bool_iff in E; [|rewrite <- Nr by lia; apply nth_In; lia].
    assert (Heq : l2_distance (nth j hyps []) gt
                  == l2_distance (nth b hyps []) gt).
    { apply Qle_antisym; [exact E|apply Hmin; lia]. }
    specialize (Hfst j ltac:(lia) Heq). lia.
Qed.

(** ** What [validation_step] leaves behind *)

Lemma validation_step_run (Image : Type) (self : PlanningBaselineV0 Image)
      (batch : Batch Image) (batch_idx : Z) (s : state)
      (pred_cls pred_trajectory : Mat) (l2_dist cls_acc : Q)
      (pred_label best_match : list nat) :
  net self (input_img batch) = Ok (pred_cls, pred_trajectory) ->
  validation_metric (M self) (num_pts self) pred_cls pred_trajectory
                    (future_poses batch)
    = Ok (l2_dist, cls_acc, pred_label, best_match) ->
  validation_step self batch batch_idx s
    = Ok (tt, with_metrics s l2_dist cls_acc).
Proof.
  intros Hnet Hval. unfold validation_step, bind, lift.
  rewrite Hnet, Hval. reflexivity.
Qed.

Lemma qnat_pos (n : nat) : (0 < n)%nat -> 0 < qnat n.
Proof.
  intros H. unfold qnat. change 0 with (inject_Z 0).
  rewrite <- Zlt_Qlt. lia.
Qed.

Lemma qnat_le (k n : nat) : (k <= n)%nat -> qnat k <= qnat n.
Proof.
  intros H. unfold qnat. rewrite <- Zle_Qle. lia.
Qed.

Lemma fraction_unit_interval (k n : nat) :
  (0 < n)%nat -> (k <= n)%nat -> 0 <= qnat k / qnat n <= 1.
Proof.
  intros Hn Hk. split.
  - apply Qle_shift_div_l; [apply qnat_pos; exact Hn|].
    rewrite Qmult_0_l. apply (qnat_le (k:=0)). lia.
  - apply Qle_shift_div_r; [apply qnat_pos; exact Hn|].
    rewrite Qmult_1_l. apply qnat_le. exact Hk.
Qed.

Lemma selector_l2_best_match (B : nat) (pt : Tensor4) (labels : Tensor3)
      (best_match : list nat) :
  length pt = B -> length labels = B -> length best_match = B ->
  (forall i, (i < B)%nat ->
             is_best_match (nth i pt []) (nth i labels [])
                           (nth i best_match 0%nat)) ->
  MTPLoss.best_hypothesis_selector l2_distance pt labels = best_match.
Proof.
  intros Lp Ll Lb H. unfold MTPLoss.best_hypothesis_selector.
  apply nth_ext with (d:=0%nat) (d':=0%nat).
  - rewrite length_map, length_combine. lia.
  - intros i Hi. rewrite length_map, length_combine in Hi.
    rewrite (nth_map_in _ ([], [])) by (rewrite length_combine; lia).
    rewrite combine_nth by lia. simpl.
    apply first_min_best_match, H. lia.
Qed.

(** ** The validation metric: claims *)

Section ValidationClaims.

Variable Image : Type.
Variable self : PlanningBaselineV0 Image.
Variable batch : Batch Image.
Variable batch_idx : Z.
Variable s : state.
Variables pred_cls pred_trajectory : Mat.

Let labels := future_poses batch.
Let B := length pred_cls.

Hypothesis Hnet : net self (input_img batch) = Ok (pred_cls, pred_trajectory).
Hypothesis Hshape :
  well_shaped (M self) (num_pts self) pred_cls pred_trajectory labels.

(** C3: on a non-empty well-shaped batch, the value logged as
    val/cls_acc is the number of examples whose predicted winner index
    (the first argmax of the confidences) equals the ground-truth
    best-match index, divided by the batch size. *)
Theorem validation_cls_acc_is_fraction :
  pred_cls <> [] ->
  exists pt l2_dist cls_acc pred_label best_match,
    torch.reshape RuntimeError (M self) (num_pts self)
                  (concat pred_trajectory) = Ok pt /\
    validation_metric (M self) (num_pts self) pred_cls pred_trajectory labels
      = Ok (l2_dist, cls_acc, pred_label, best_match) /\
    validation_step self batch batch_idx s
      = Ok (tt, with_metrics s l2_dist cls_acc) /\
    (forall i, (i < B)%nat ->
       is_first_argmax (nth i pred_cls []) (nth i pred_label 0%nat) /\
       is_best_match (nth i pt []) (nth i labels [])
                     (nth i best_match 0%nat)) /\
    cls_acc = qnat (agreements B best_match pred_label) / qnat B.
Proof.
  intros Hne.
  destruct (validation_metric_spec Hshape Hne)
    as (pt & l2 & acc & pl & bm & Hpt & _ & Hval & _ & _ & Hmax & Hbest & _ & Hacc).
  exists pt, l2, acc, pl, bm.
  split; [exact Hpt|]. split; [exact Hval|].
  split; [eapply validation_step_run; eauto|].
  split; [|exact Hacc].
  intros i Hi. split; [apply Hmax|apply Hbest]; exact Hi.
Qed.

(** C4: the predicted winner index of every example is the first argmax
    of its confidence vector, and the value logged as val/l2_dist is one
    scalar: the squared differences between the predicted-winner
    trajectories and the ground truth, summed over examples, points and
    axes with equal weight, divided by their number. *)
Theorem validation_l2_dist_is_mse :
  pred_cls <> [] ->
  exists pt l2_dist cls_acc pred_label best_match,
    torch.reshape RuntimeError (M self) (num_pts self)
                  (concat pred_trajectory) = Ok pt /\
    validation_metric (M self) (num_pts self) pred_cls pred_trajectory labels
      = Ok (l2_dist, cls_acc, pred_label, best_match) /\
    validation_step self batch batch_idx s
      = Ok (tt, with_metrics s l2_dist cls_acc) /\
    (forall i, (i < B)%nat ->
       is_first_argmax (nth i pred_cls []) (nth i pred_label 0%nat)) /\
    l2_dist == batch_sq_error (select pt pred_label) labels
               / qnat (B * Z.to_nat (num_pts self) * 3).
Proof.
  intros Hne.
  destruct (validation_metric_spec Hshape Hne)
    as (pt & l2 & acc & pl & bm & Hpt & _ & Hval & _ & _ & Hmax & _ & Hl2 & _).
  exists pt, l2, acc, pl, bm.
  split; [exact Hpt|]. split; [exact Hval|].
  split; [eapply validation_step_run; eauto|].
  split; [exact Hmax|exact Hl2].
Qed.

(** C5: on a non-empty well-shaped batch, for every example the best-match
    index of the validation metric
    names a hypothesis whose distance to the ground truth (the sum over
    points and axes of the squared differences) is at most that of every
    other hypothesis, and it is the lowest index among the minimal
    ones. *)
Theorem validation_best_match_is_first_minimum :
  pred_cls <> [] ->
  exists pt l2_dist cls_acc pred_label best_match,
    torch.reshape RuntimeError (M self) (num_pts self)
                  (concat pred_trajectory) = Ok pt /\
    validation_metric (M self) (num_pts self) pred_cls pred_trajectory labels
      = Ok (l2_dist, cls_acc, pred_label, best_match) /\
    length best_match = B /\
    forall i, (i < B)%nat ->
      let hyps := nth i pt [] in
      let gt := nth i labels [] in
      let b := nth i best_match 0%nat in
      length hyps = Z.to_nat (M self) /\
      (b < Z.to_nat (M self))%nat /\
      forall j, (j < Z.to_nat (M self))%nat ->
        l2_distance (nth b hyps []) gt <= l2_distance (nth j hyps []) gt /\
        (l2_distance (nth j hyps []) gt == l2_distance (nth b hyps []) gt ->
         (b <= j)%nat).
Proof.
  intros Hne.
  destruct (validation_metric_spec Hshape Hne)
    as (pt & l2 & acc & pl & bm & Hpt & [Lpt Fpt] & Hval & _ & Lbm & _ & Hbest & _).
  exists pt, l2, acc, pl, bm.
  split; [exact Hpt|]. split; [exact Hval|]. split; [exact Lbm|].
  intros i Hi hyps gt b.
  assert (Lh : length hyps = Z.to_nat (M self)).
  { assert (Sh : shape3 (Z.to_nat (M self)) (Z.to_nat (num_pts self)) 3 hyps)
      by (apply Forall_nth_shape; auto; fold B in Lpt; lia).
    exact (proj1 Sh). }
  destruct (Hbest i Hi) as (Hb & Hmin & Hfst).
  fold hyps gt b in Hb, Hmin, Hfst. rewrite Lh in *.
  split; [reflexivity|]. split; [exact Hb|].
  intros j Hj. split; [apply Hmin|apply Hfst]; exact Hj.
Qed.

(** C8: on a non-empty well-shaped batch the value logged as val/cls_acc
    lies in the closed interval [0, 1]. *)
Theorem validation_cls_acc_in_unit_interval :
  pred_cls <> [] ->
  exists l2_dist cls_acc pred_label best_match,
    validation_metric (M self) (num_pts self) pred_cls pred_trajectory labels
      = Ok (l2_dist, cls_acc, pred_label, best_match) /\
    validation_step self batch batch_idx s
      = Ok (tt, with_metrics s l2_dist cls_acc) /\
    0 <= cls_acc <= 1.
Proof.
  intros Hne.
  destruct (validation_metric_spec Hshape Hne)
    as (pt & l2 & acc & pl & bm & _ & _ & Hval & _ & _ & _ & _ & _ & Hacc).
  exists l2, acc, pl, bm.
  split; [exact Hval|].
  split; [eapply validation_step_run; eauto|].
  rewrite Hacc. apply fraction_unit_interval.
  - destruct pred_cls; [congruence|simpl; lia].
  - apply agreements_le.
Qed.

(** C2, as amended: on a non-empty well-shaped batch the best-match index
    of the validation metric is the
    index the Best-Hypothesis Selector returns when the loss is
    configured with the L2 distance, whatever the heading function and
    the convention of its angle mode. *)
Theorem validation_best_match_is_l2_selector
        (heading : Q -> Q -> Q) (conv : MTPLoss.convention) :
  pred_cls <> [] ->
  exists pt l2_dist cls_acc pred_label best_match,
    torch.reshape RuntimeError (M self) (num_pts self)
                  (concat pred_trajectory) = Ok pt /\
    validation_metric (M self) (num_pts self) pred_cls pred_trajectory labels
      = Ok (l2_dist, cls_acc, pred_label, best_match) /\
    MTPLoss.selector heading conv
                     (with_distance_type (mtp_loss self) "l2") pt labels
      = Some best_match.
Proof.
  intros Hne.
  destruct (validation_metric_spec Hshape Hne)
    as (pt & l2 & acc & pl & bm & Hpt & [Lpt _] & Hval & _ & Lbm & _ & Hbest & _).
  exists pt, l2, acc, pl, bm.
  split; [exact Hpt|]. split; [exact Hval|].
  unfold MTPLoss.selector, MTPLoss.distance. simpl. f_equal.
  apply selector_l2_best_match with (B:=B); auto.
  exact (proj1 (ws_labels Hshape)).
Qed.

End ValidationClaims.

(** ** The validation selector against the angle selector of the loss *)

Lemma stretched_well_shaped :
  well_shaped 2 2 stretched_pred_cls stretched_pred_trajectory
              stretched_labels.
Proof.
  constructor; try reflexivity.
  - split; [reflexivity|]. repeat constructor.
  - split; [reflexivity|]. repeat constructor.
Qed.

Lemma first_min_head (d0 d1 : Q) :
  d0 <= d1 -> MTPLoss.first_min [d0; d1] = 0%nat.
Proof.
  intros H. unfold MTPLoss.first_min. simpl.
  assert (E0 : Qle_bool d0 d0 = true) by (apply Qle_bool_iff, Qle_refl).
  assert (E1 : Qle_bool d0 d1 = true) by (apply Qle_bool_iff, H).
  rewrite E0, E1. reflexivity.
Qed.

Lemma sq_diff_equal (a b : Q) : a == b -> (a - b) * (a - b) == 0.
Proof. intros ->. ring. Qed.

(** C2, counterexample: for every heading function that depends on the
    direction of a displacement only (scaling both coordinates by a
    positive factor leaves it unchanged, as for any angle) and for either
    convention, the selector of the loss as [__init__] configures it
    (angle mode) and the best match of the validation metric disagree on
    the stretched example: both hypotheses point where the ground truth
    points, so the angle distances tie at 0 and the angle selector
    returns index 0, while the validation metric returns index 1, the
    hypothesis at L2 distance 0. *)
Lemma validation_best_match_is_not_angle_selector :
  ~ (exists (heading : Q -> Q -> Q) (conv : MTPLoss.convention),
       (forall k x y, 0 < k -> heading (k * x) (k * y) == heading x y) /\
       forall (Image : Type) (PlaningNetwork : Z -> Z -> Image -> result (Mat * Mat))
              (M num_pts : Z) (mtp_alpha lr : Q)
              (pred_cls pred_trajectory : Mat) (labels : Tensor3)
              (pt : Tensor4) (l2_dist cls_acc : Q)
              (pred_label best_match : list nat),
         let self := __init__ PlaningNetwork M num_pts mtp_alpha lr in
         well_shaped M num_pts pred_cls pred_trajectory labels ->
         pred_cls <> [] ->
         torch.reshape RuntimeError M num_pts (concat pred_trajectory) = Ok pt ->
         validation_metric M num_pts pred_cls pred_trajectory labels
           = Ok (l2_dist, cls_acc, pred_label, best_match) ->
         MTPLoss.selector heading conv (mtp_loss self) pt labels
           = Some best_match).
Proof.
  intros (heading & conv & Hs & H).
  specialize (H unit (fun _ _ _ => Raise RuntimeError) 2%Z 2%Z 1 1
                stretched_pred_cls stretched_pred_trajectory stretched_labels
                [[[[2; 0; 0]; [4; 0; 0]]; [[1; 0; 0]; [2; 0; 0]]]]
                (5 # 6) (0 # 1) [0%nat] [1%nat]
                stretched_well_shaped ltac:(discriminate) eq_refl eq_refl).
  assert (E21 : heading 2 0 == heading 1 0) by exact (Hs 2 1 0 eq_refl).
  assert (E42 : heading 4 0 == heading 2 0) by exact (Hs 2 2 0 eq_refl).
  unfold MTPLoss.selector, MTPLoss.distance in H. simpl in H.
  unfold MTPLoss.best_hypothesis_selector, MTPLoss.angle_distance in H.
  destruct conv; simpl in H; rewrite first_min_head in H;
    try discriminate H.
  - rewrite (sq_diff_equal E21), (sq_diff_equal (Qeq_refl (heading 1 0))).
    apply Qle_refl.
  - rewrite (sq_diff_equal E21), (sq_diff_equal E42),
      (sq_diff_equal (Qeq_refl (heading 1 0))),
      (sq_diff_equal (Qeq_refl (heading 2 0))).
    apply Qle_refl.
Qed.

(** ** The training step *)

Section TrainingLemmas.

Variable Image : Type.
Variable forward :
  MultipleTrajectoryPredictionLoss ->
  Mat -> Mat -> Tensor3 -> result (Q * Vec).
Variable self : PlanningBaselineV0 Image.
Variable batch : Batch Image.
Variable batch_idx : Z.

Lemma item_ok (v : Vec) (i : nat) :
  (i < length v)%nat -> exists x, numpy.item v i = Ok x.
Proof.
  intros H. unfold numpy.item.
  destruct (nth_error v i) eqn:E; [simpl; eauto|].
  apply nth_error_None in E. lia.
Qed.

(** Every run that returns has gone through the network and the loss,
    and returns the objective of their results. *)
Lemma training_step_inv (s s' : state) (v : Q) :
  training_step forward self batch batch_idx s = Ok (v, s') ->
  exists pred_cls pred_trajectory cls_loss reg_loss,
    net self (input_img batch) = Ok (pred_cls, pred_trajectory) /\
    forward (mtp_loss self) pred_cls pred_trajectory (future_poses batch)
      = Ok (cls_loss, reg_loss) /\
    (3 <= length reg_loss)%nat /\
    v = objective (mtp_alpha self) cls_loss reg_loss.
Proof.
  unfold training_step, bind, lift, log, ret.
  destruct (net self (input_img batch)) as [[pc ptj]|] eqn:Hnet;
    [|discriminate].
  destruct (forward (mtp_loss self) pc ptj (future_poses batch))
    as [[cls reg]|] eqn:Hfw; [|discriminate].
  destruct (numpy.item reg 0); [|discriminate].
  destruct (numpy.item reg 1); [|discriminate].
  destruct (numpy.item reg 2) eqn:I2; [|discriminate].
  match goal with
  | |- context [match ?c ?st with _ => _ end] => destruct (c st) as [[[] ?]|]
  end; [|discriminate].
  intros H. injection H as <- _.
  exists pc, ptj, cls, reg. repeat split; auto.
  unfold numpy.item in I2.
  assert (N : nth_error reg 2 <> None)
    by (destruct (nth_error reg 2); [discriminate|discriminate I2]).
  apply nth_error_Some in N. lia.
Qed.

(** The run up to the plotting branch. *)
Lemma training_step_run (s : state)
      (pred_cls pred_trajectory : Mat) (cls_loss : Q) (reg_loss : Vec) :
  net self (input_img batch) = Ok (pred_cls, pred_trajectory) ->
  forward (mtp_loss self) pred_cls pred_trajectory (future_poses batch)
    = Ok (cls_loss, reg_loss) ->
  (3 <= length reg_loss)%nat ->
  exists s1,
    training_step forward self batch batch_idx s =
    match (if (batch_idx mod 10 =? 0)%Z
           then plot self pred_cls pred_trajectory (future_poses batch)
           else ret tt) s1 with
    | Ok (_, s2) => Ok (objective (mtp_alpha self) cls_loss reg_loss, s2)
    | Raise e => Raise e
    end.
Proof.
  intros Hnet Hfw Hreg.
  unfold training_step, bind, lift, log, ret. rewrite Hnet, Hfw.
  destruct (item_ok reg_loss (i:=0)) as [x0 ->]; [lia|].
  destruct (item_ok reg_loss (i:=1)) as [x1 ->]; [lia|].
  destruct (item_ok reg_loss (i:=2)) as [x2 ->]; [lia|].
  eexists. reflexivity.
Qed.

End TrainingLemmas.

(** ** The plotting branch *)

Lemma reshape_inv (e : exn) (M num_pts : Z) (data : list Q) (t : Tensor4) :
  torch.reshape e M num_pts data = Ok t ->
  (0 < M)%Z /\ (0 < num_pts)%Z /\
  exists B, shape4 B (Z.to_nat M) (Z.to_nat num_pts) 3 t.
Proof.
  intros H. pose proof H as H'. unfold torch.reshape in H.
  destruct (Z.leb_spec M 0); [discriminate|].
  destruct (Z.leb_spec num_pts 0); [discriminate|]. simpl in H.
  destruct (Nat.eqb_spec (length data mod (Z.to_nat M * Z.to_nat num_pts * 3)) 0)
    as [E|]; [|discriminate].
  apply Nat.Div0.div_exact in E.
  set (k := (Z.to_nat M * Z.to_nat num_pts * 3)%nat) in *.
  destruct (reshape_shape e data (length data / k) (M:=M) (num_pts:=num_pts))
    as (t' & Ht' & Sh); [lia|lia| |].
  - rewrite E at 1. subst k. ring.
  - rewrite H' in Ht'. injection Ht' as <-. eauto.
Qed.

Lemma reshape_raises (e e' : exn) (M num_pts : Z) (data : list Q) :
  torch.reshape e M num_pts data = Raise e' -> e' = e.
Proof.
  unfold torch.reshape.
  destruct ((M <=? 0)%Z || (num_pts <=? 0)%Z); [congruence|].
  destruct (_ =? 0)%nat; congruence.
Qed.

Lemma mapM_raises {A B : Type} (f : A -> result B) (E : exn) :
  (forall x e, f x = Raise e -> e = E) ->
  forall l e, mapM f l = Raise e -> e = E.
Proof.
  intros Hf. induction l as [|x l IH]; intros e H; simpl in H; [discriminate|].
  destruct (f x) eqn:Ex; simpl in H.
  - destruct (mapM f l); simpl in H; [discriminate|].
    apply IH. congruence.
  - apply (Hf x). congruence.
Qed.

Lemma of_option_raises {A : Type} (E e : exn) (o : option A) :
  of_option E o = Raise e -> e = E.
Proof. destruct o; simpl; congruence. Qed.

Lemma column3_raises (t : Tensor3) (i c : nat) (e : exn) :
  numpy.column3 t i c = Raise e -> e = IndexError.
Proof.
  unfold numpy.column3. destruct (nth_error t i); simpl; [|congruence].
  apply mapM_raises. intros x e'. apply of_option_raises.
Qed.

Lemma column4_raises (t : Tensor4) (i j c : nat) (e : exn) :
  numpy.column4 t i j c = Raise e -> e = IndexError.
Proof.
  unfold numpy.column4. destruct (nth_error t i); simpl; [|congruence].
  apply column3_raises.
Qed.

Lemma item2_raises (m : Mat) (i j : nat) (e : exn) :
  numpy.item2 m i j = Raise e -> e = IndexError.
Proof.
  unfold numpy.item2. destruct (nth_error m i); simpl; [|congruence].
  apply of_option_raises.
Qed.

Lemma plot_pred_raises (pt : Tensor4) (pc : Mat) (k : nat) (lbl : string)
      (e : exn) :
  plot_pred pt pc k lbl = Raise e -> e = IndexError.
Proof.
  unfold plot_pred.
  destruct (numpy.column4 pt 0 k 1) eqn:E1; simpl;
    [|intros H; apply (column4_raises pt 0 k 1); congruence].
  destruct (numpy.column4 pt 0 k 0) eqn:E0; simpl;
    [|intros H; apply (column4_raises pt 0 k 0); congruence].
  destruct (numpy.item2 pc 0 k) eqn:E2; simpl; [discriminate|].
  intros H; apply (item2_raises pc 0 k); congruence.
Qed.

(** A hypothesis index beyond the [m] hypotheses of the tensor raises. *)
Lemma plot_pred_out_of_bounds (B m p c : nat) (pt : Tensor4) (pc : Mat)
      (k : nat) (lbl : string) :
  shape4 B m p c pt -> (m <= k)%nat ->
  plot_pred pt pc k lbl = Raise IndexError.
Proof.
  intros [L F] Hk. unfold plot_pred, numpy.column4, numpy.column3.
  destruct (nth_error pt 0) as [ex|] eqn:E; simpl; [|reflexivity].
  apply nth_error_In in E. rewrite Forall_forall in F.
  destruct (F ex E) as [Lex _].
  assert (N : nth_error ex k = None) by (apply nth_error_None; lia).
  rewrite N. reflexivity.
Qed.

Lemma column3_ok (n p c3 : nat) (t : Tensor3) (i c : nat) :
  shape3 n p c3 t -> (i < n)%nat -> (c < c3)%nat ->
  exists v, numpy.column3 t i c = Ok v.
Proof.
  intros [L F] Hi Hc. unfold numpy.column3.
  rewrite (nth_error_nth' t []) by lia. simpl.
  assert (Sh : shape2 p c3 (nth i t [])) by (apply Forall_nth_shape; auto; lia).
  destruct (mapM_spec (fun pt => numpy.item pt c) (fun _ _ => True) [] 0
                      (nth i t [])) as (v & Hv & _).
  - intros pt Hpt. destruct Sh as [_ Fp]. rewrite Forall_forall in Fp.
    destruct (item_ok pt (i:=c)) as [x Hx]; [rewrite (Fp pt Hpt); exact Hc|].
    eauto.
  - eauto.
Qed.

Lemma column4_ok (B m p c3 : nat) (t : Tensor4) (i j c : nat) :
  shape4 B m p c3 t -> (i < B)%nat -> (j < m)%nat -> (c < c3)%nat ->
  exists v, numpy.column4 t i j c = Ok v.
Proof.
  intros [L F] Hi Hj Hc. unfold numpy.column4.
  rewrite (nth_error_nth' t []) by lia. simpl.
  apply column3_ok with (n:=m) (p:=p) (c3:=c3); auto.
  apply Forall_nth_shape; auto; lia.
Qed.

Lemma item2_ok (B m : nat) (pc : Mat) (i j : nat) :
  shape2 B m pc -> (i < B)%nat -> (j < m)%nat ->
  exists x, numpy.item2 pc i j = Ok x.
Proof.
  intros [L F] Hi Hj. unfold numpy.item2.
  rewrite (nth_error_nth' pc []) by lia. simpl.
  apply item_ok. rewrite (Forall_nth_shape [] F) by lia. exact Hj.
Qed.

Lemma plot_pred_ok (B m p : nat) (pt : Tensor4) (pc : Mat) (k : nat)
      (lbl : string) :
  shape4 B m p 3 pt -> shape2 B m pc -> (0 < B)%nat -> (k < m)%nat ->
  exists l, plot_pred pt pc k lbl = Ok l.
Proof.
  intros Spt Spc HB Hk. unfold plot_pred.
  destruct (column4_ok (i:=0) (j:=k) (c:=1) Spt) as [y ->]; try lia.
  destruct (column4_ok (i:=0) (j:=k) (c:=0) Spt) as [x ->]; try lia.
  destruct (item2_ok (i:=0) (j:=k) Spc) as [c ->]; try lia.
  simpl. eauto.
Qed.

Section Plot.

Variable Image : Type.
Variable self : PlanningBaselineV0 Image.
Variables pred_cls pred_trajectory : Mat.
Variable labels : Tensor3.

(** With fewer than three hypotheses the plotting branch never
    completes: numpy refuses the reshape, or an index is out of
    bounds. *)
Lemma plot_fewer_than_three (s : state) :
  (M self < 3)%Z ->
  (exists pt,
      torch.reshape ValueError (M self) (num_pts self)
                    (concat pred_trajectory) = Ok pt /\
      plot self pred_cls pred_trajectory labels s = Raise IndexError) \/
  (torch.reshape ValueError (M self) (num_pts self)
                 (concat pred_trajectory) = Raise ValueError /\
   plot self pred_cls pred_trajectory labels s = Raise ValueError).
Proof.
  intros HM. unfold plot, bind, lift.
  destruct (torch.reshape ValueError (M self) (num_pts self)
                          (concat pred_trajectory)) as [pt|e] eqn:R.
  - left. exists pt. split; [reflexivity|].
    destruct (@reshape_inv _ _ _ _ _ R) as (HM0 & _ & B & Sh).
    destruct (plot_pred pt pred_cls 0 _) eqn:E0;
      [|apply plot_pred_raises in E0; congruence].
    destruct (plot_pred pt pred_cls 1 _) eqn:E1;
      [|apply plot_pred_raises in E1; congruence].
    rewrite (@plot_pred_out_of_bounds _ _ _ _ pt pred_cls 2 _ Sh);
      [reflexivity|lia].
  - right. apply reshape_raises in R. subst e. auto.
Qed.

Lemma plot_ok (s : state) :
  well_shaped (M self) (num_pts self) pred_cls pred_trajectory labels ->
  pred_cls <> [] -> (3 <= M self)%Z ->
  exists s', plot self pred_cls pred_trajectory labels s = Ok (tt, s').
Proof.
  intros [HM HP Hc Ht Hl] Hne H3. unfold plot, bind, lift, add_figure.
  assert (HB : (0 < length pred_cls)%nat)
    by (destruct pred_cls; [congruence|simpl; lia]).
  destruct (reshape_shape ValueError (concat pred_trajectory)
                          (length pred_cls) HM HP Ht) as (pt & -> & Sh).
  destruct (plot_pred_ok (k:=0) "pred0 - conf %.3f" Sh Hc) as [l0 ->];
    try lia.
  destruct (plot_pred_ok (k:=1) "pred1 - conf %.3f" Sh Hc) as [l1 ->];
    try lia.
  destruct (plot_pred_ok (k:=2) "pred2 - conf %.3f" Sh Hc) as [l2 ->];
    try lia.
  destruct (column3_ok (i:=0) (c:=1) Hl) as [gy ->]; try lia.
  destruct (column3_ok (i:=0) (c:=0) Hl) as [gx ->]; try lia.
  eauto.
Qed.

End Plot.

(** ** The training step: claims *)

Section TrainingClaims.

Variable Image : Type.
Variable forward :
  MultipleTrajectoryPredictionLoss ->
  Mat -> Mat -> Tensor3 -> result (Q * Vec).

(** C1: whenever [training_step] returns, its value is
    classification_loss + mtp_alpha * mean(regression_loss) for the pair
    the loss returned on the predictions and the ground truth of the
    batch; and it does return that value, outside the plotting branch
    whenever the loss yields its three regression components, and on the
    plotting branch whenever moreover the batch is non-empty and
    well-shaped with at least three hypotheses. *)
Theorem training_step_returns_objective
        (self : PlanningBaselineV0 Image) (batch : Batch Image)
        (batch_idx : Z) (s : state) :
  (forall v s',
      training_step forward self batch batch_idx s = Ok (v, s') ->
      exists pred_cls pred_trajectory cls_loss reg_loss,
        net self (input_img batch) = Ok (pred_cls, pred_trajectory) /\
        forward (mtp_loss self) pred_cls pred_trajectory
                (future_poses batch) = Ok (cls_loss, reg_loss) /\
        v = cls_loss + mtp_alpha self * torch.mean reg_loss) /\
  (forall pred_cls pred_trajectory cls_loss reg_loss,
      net self (input_img batch) = Ok (pred_cls, pred_trajectory) ->
      forward (mtp_loss self) pred_cls pred_trajectory
              (future_poses batch) = Ok (cls_loss, reg_loss) ->
      (3 <= length reg_loss)%nat ->
      (batch_idx mod 10 <> 0)%Z \/
      (well_shaped (M self) (num_pts self) pred_cls pred_trajectory
                   (future_poses batch) /\
       pred_cls <> [] /\ (3 <= M self)%Z) ->
      exists s',
        training_step forward self batch batch_idx s
        = Ok (cls_loss + mtp_alpha self * torch.mean reg_loss, s')).
Proof.
  split.
  - intros v s' H. apply training_step_inv in H.
    destruct H as (pc & ptj & cls & reg & Hnet & Hfw & _ & ->).
    exists pc, ptj, cls, reg. auto.
  - intros pc ptj cls reg Hnet Hfw Hreg Hbranch.
    destruct (@training_step_run Image forward self batch batch_idx s _ _ _ _
                                    Hnet Hfw Hreg) as [s1 ->].
    destruct (Z.eqb_spec (batch_idx mod 10) 0) as [E|E].
    + destruct Hbranch as [Hne|(Hws & Hne & H3)]; [contradiction|].
      destruct (@plot_ok Image self pc ptj (future_poses batch) s1 Hws Hne H3) as [s2 ->]. eauto.
    + unfold ret. eauto.
Qed.

(** C6: with the losses of the batch fixed, doubling mtp_alpha doubles
    what the regression term adds to the value [training_step] returns
    and leaves the classification term as it is. *)
Theorem training_step_alpha_doubling
        (self1 self2 : PlanningBaselineV0 Image) (batch : Batch Image)
        (idx1 idx2 : Z) (s1 s2 s1' s2' : state)
        (pc1 ptj1 pc2 ptj2 : Mat) (cls_loss : Q) (reg_loss : Vec)
        (v1 v2 : Q) :
  net self1 (input_img batch) = Ok (pc1, ptj1) ->
  forward (mtp_loss self1) pc1 ptj1 (future_poses batch)
    = Ok (cls_loss, reg_loss) ->
  net self2 (input_img batch) = Ok (pc2, ptj2) ->
  forward (mtp_loss self2) pc2 ptj2 (future_poses batch)
    = Ok (cls_loss, reg_loss) ->
  mtp_alpha self2 == 2 * mtp_alpha self1 ->
  training_step forward self1 batch idx1 s1 = Ok (v1, s1') ->
  training_step forward self2 batch idx2 s2 = Ok (v2, s2') ->
  v1 - cls_loss == mtp_alpha self1 * torch.mean reg_loss /\
  v2 - cls_loss == 2 * (v1 - cls_loss).
Proof.
  intros N1 F1 N2 F2 Ha R1 R2.
  apply training_step_inv in R1. apply training_step_inv in R2.
  destruct R1 as (? & ? & c1 & r1 & N1' & F1' & _ & ->).
  destruct R2 as (? & ? & c2 & r2 & N2' & F2' & _ & ->).
  rewrite N1 in N1'. injection N1' as <- <-.
  rewrite N2 in N2'. injection N2' as <- <-.
  rewrite F1 in F1'. injection F1' as <- <-.
  rewrite F2 in F2'. injection F2' as <- <-.
  unfold objective. rewrite Ha. split; ring.
Qed.

(** C9, as amended: on a batch index divisible by 10 a module with fewer than three
    hypotheses never completes [training_step]; once the network and
    the loss have returned and numpy has accepted the reshape (which
    needs M >= 1), the exception is the out-of-bounds IndexError of the
    plotting branch. *)
Theorem training_step_plot_needs_three_hypotheses
        (self : PlanningBaselineV0 Image) (batch : Batch Image)
        (batch_idx : Z) (s : state) :
  (batch_idx mod 10 = 0)%Z ->
  (M self < 3)%Z ->
  (exists e, training_step forward self batch batch_idx s = Raise e) /\
  (forall pred_cls pred_trajectory cls_loss reg_loss pt,
      net self (input_img batch) = Ok (pred_cls, pred_trajectory) ->
      forward (mtp_loss self) pred_cls pred_trajectory
              (future_poses batch) = Ok (cls_loss, reg_loss) ->
      (3 <= length reg_loss)%nat ->
      torch.reshape ValueError (M self) (num_pts self)
                    (concat pred_trajectory) = Ok pt ->
      training_step forward self batch batch_idx s = Raise IndexError).
Proof.
  intros Hidx HM. split.
  - destruct (training_step forward self batch batch_idx s)
      as [[v s']|e] eqn:E; [exfalso|eauto].
    pose proof E as E'. apply training_step_inv in E'.
    destruct E' as (pc & ptj & cls & reg & Hnet & Hfw & Hreg & _).
    destruct (@training_step_run Image forward self batch batch_idx s _ _ _ _
                                    Hnet Hfw Hreg) as [s1 R].
    rewrite R in E. clear R.
    apply Z.eqb_eq in Hidx. rewrite Hidx in E.
    destruct (@plot_fewer_than_three Image self pc ptj (future_poses batch)
                                        s1 HM)
      as [(pt & _ & P)|[_ P]]; rewrite P in E; discriminate.
  - intros pc ptj cls reg pt Hnet Hfw Hreg Hpt.
    destruct (@training_step_run Image forward self batch batch_idx s _ _ _ _
                                    Hnet Hfw Hreg) as [s1 ->].
    apply Z.eqb_eq in Hidx. rewrite Hidx.
    destruct (@plot_fewer_than_three Image self pc ptj (future_poses batch)
                                        s1 HM)
      as [(pt' & _ & P)|[P _]]; [rewrite P; reflexivity|congruence].
Qed.

End TrainingClaims.

(** C10: whatever constructor arguments it receives, [__init__] builds the
    loss with distance type "angle" (which is not "l2"), and every call
    [training_step] makes to the loss passes that object: what the loss
    would do under any other distance type has no bearing on a training
    step.  The main program builds its model through [__init__] from the
    attributes M, num_pts, mtp_alpha and lr alone: whatever else the
    namespace holds (the options of the trainer, an attribute named
    distance_type), the loss of the model is in angle mode. *)
Theorem init_hard_codes_angle_distance
        (Image : Type) (PlaningNetwork : Z -> Z -> Image -> result (Mat * Mat))
        (M num_pts : Z) (mtp_alpha lr : Q) :
  let self := __init__ PlaningNetwork M num_pts mtp_alpha lr in
  distance_type (mtp_loss self) = "angle"%string /\
  distance_type (mtp_loss self) <> "l2"%string /\
  (forall (forward1 forward2 :
             MultipleTrajectoryPredictionLoss ->
             Mat -> Mat -> Tensor3 -> result (Q * Vec))
          (batch : Batch Image) (batch_idx : Z) (s : state),
      (forall loss pred_cls pred_trajectory labels,
          distance_type loss = "angle"%string ->
          forward1 loss pred_cls pred_trajectory labels
          = forward2 loss pred_cls pred_trajectory labels) ->
      training_step forward1 self batch batch_idx s
      = training_step forward2 self batch batch_idx s) /\
  (forall (args : Namespace) (model : PlanningBaselineV0 Image),
      main_model PlaningNetwork args = Some model ->
      distance_type (mtp_loss model) = "angle"%string) /\
  (forall args1 args2 : Namespace,
      args1 "M"%string = args2 "M"%string ->
      args1 "num_pts"%string = args2 "num_pts"%string ->
      args1 "mtp_alpha"%string = args2 "mtp_alpha"%string ->
      args1 "lr"%string = args2 "lr"%string ->
      main_model PlaningNetwork args1 = main_model PlaningNetwork args2).
Proof.
  cbv zeta. split; [reflexivity|]. split; [discriminate|]. split; [|split].
  - intros fw1 fw2 batch batch_idx s H.
    unfold training_step, bind, lift.
    destruct (net _ (input_img batch)) as [[pc ptj]|e]; [|reflexivity].
    rewrite (H (mtp_loss (__init__ PlaningNetwork M num_pts mtp_alpha lr))
               pc ptj (future_poses batch) eq_refl).
    reflexivity.
  - intros args model. unfold main_model.
    destruct (args "M"%string) as [[m| |]|]; try discriminate.
    destruct (args "num_pts"%string) as [[p| |]|]; try discriminate.
    destruct (args "mtp_alpha"%string) as [[| a |]|]; try discriminate.
    destruct (args "lr"%string) as [[| l |]|]; try discriminate.
    intros E. injection E as <-. reflexivity.
  - intros args1 args2 E1 E2 E3 E4. unfold main_model.
    rewrite E1, E2, E3, E4. reflexivity.
Qed.

(** ** The claims on the concrete batch *)

Lemma example_shaped :
well_shaped 3 2 Example.pred_cls Example.pred_trajectory Example.labels.
Proof.
  constructor; try reflexivity.
  - split; [reflexivity|]. repeat constructor.
  - split; [reflexivity|]. repeat constructor.
Defined.

Lemma example_nonempty : Example.pred_cls <> [].
Proof. discriminate. Defined.

(** The network picks hypothesis 0, which is the best match: the error is
    0 and the accuracy 1. *)
Example validation_metric_agreeing :
  validation_metric 3 2 Example.pred_cls Example.pred_trajectory
                    Example.labels
  = Ok (0 # 6, 1, [0%nat], [0%nat]).
Proof. reflexivity. Qed.

(** The network is confident in hypothesis 1 while hypothesis 0 is the best
    match: the accuracy of the example is 0 and the error is that of
    hypothesis 1. *)
Example validation_metric_disagreeing :
  validation_metric 3 2 [[0; 10; 0]] Example.pred_trajectory Example.labels
  = Ok (59801 # 6, 0, [1%nat], [0%nat]).
Proof. reflexivity. Qed.

(** Two minimal hypotheses: the lower index is the best match. *)
Example validation_metric_tie :
  validation_metric 2 1 [[0; 1]] [[1; 0; 0;  1; 0; 0]] [[[1; 0; 0]]]
  = Ok (0 # 3, 0, [1%nat], [0%nat]).
Proof. reflexivity. Qed.

(** Off the plotting branch two hypotheses are enough. *)
Example training_step_two_hypotheses_no_plot :
  training_step Example.loss (Example.module 2 1) Example.batch 11
                Example.start
  = Ok (15 # 6,
        {| logged := [("loss/cls"%string, 1 # 2);
                      ("loss/reg"%string, 6 # 3);
                      ("loss/reg_x"%string, 1);
                      ("loss/reg_y"%string, 2);
                      ("loss/reg_z"%string, 3)];
           figures := [];
           global_step := 7 |}).
Proof. reflexivity. Qed.

Lemma training_step_returns_objective_witness :
  exists s',
    training_step Example.loss (Example.module 3 1) Example.batch 0
                  Example.start
    = Ok ((1 # 2) + 1 * torch.mean [1; 2; 3], s').
Proof.
  apply (proj2 (training_step_returns_objective
                  Example.loss (Example.module 3 1) Example.batch 0
                  Example.start)
               Example.pred_cls Example.pred_trajectory (1 # 2) [1; 2; 3]
               eq_refl eq_refl (le_n 3)).
  right. split; [exact example_shaped|].
  split; [exact example_nonempty|]. discriminate.
Defined.

Lemma validation_best_match_is_l2_selector_witness :
  exists pt best_match,
    MTPLoss.selector (fun _ _ => 0) MTPLoss.ConsecutivePairs
                     (with_distance_type (mtp_loss (Example.module 3 1)) "l2")
                     pt Example.labels
    = Some best_match.
Proof.
  destruct (@validation_best_match_is_l2_selector
              unit (Example.module 3 1) Example.batch
              Example.pred_cls Example.pred_trajectory example_shaped
              (fun _ _ => 0) MTPLoss.ConsecutivePairs example_nonempty)
    as (pt & _ & _ & _ & bm & _ & _ & H).
  exists pt, bm. exact H.
Defined.

Lemma validation_cls_acc_is_fraction_witness :
  exists cls_acc pred_label best_match,
    cls_acc = qnat (agreements 1 best_match pred_label) / qnat 1.
Proof.
  destruct (@validation_cls_acc_is_fraction
              unit (Example.module 3 1) Example.batch 0%Z Example.start
              Example.pred_cls Example.pred_trajectory
              eq_refl example_shaped example_nonempty)
    as (_ & _ & acc & pl & bm & _ & _ & _ & _ & H).
  exists acc, pl, bm. exact H.
Defined.

Lemma validation_l2_dist_is_mse_witness :
  exists pt l2_dist pred_label,
    l2_dist == batch_sq_error (select pt pred_label) Example.labels
               / qnat (1 * 2 * 3).
Proof.
  destruct (@validation_l2_dist_is_mse
              unit (Example.module 3 1) Example.batch 0%Z Example.start
              Example.pred_cls Example.pred_trajectory
              eq_refl example_shaped example_nonempty)
    as (pt & l2 & _ & pl & _ & _ & _ & _ & _ & H).
  exists pt, l2, pl. exact H.
Defined.

Lemma validation_best_match_is_first_minimum_witness :
  exists best_match : list nat, length best_match = 1%nat.
Proof.
  destruct (@validation_best_match_is_first_minimum
              unit (Example.module 3 1) Example.batch
              Example.pred_cls Example.pred_trajectory example_shaped
              example_nonempty)
    as (_ & _ & _ & _ & bm & _ & _ & H & _).
  exists bm. exact H.
Defined.

Lemma validation_cls_acc_in_unit_interval_witness :
  exists cls_acc, 0 <= cls_acc <= 1.
Proof.
  destruct (@validation_cls_acc_in_unit_interval
              unit (Example.module 3 1) Example.batch 0%Z Example.start
              Example.pred_cls Example.pred_trajectory
              eq_refl example_shaped example_nonempty)
    as (_ & acc & _ & _ & _ & _ & H).
  exists acc. exact H.
Defined.

Lemma training_step_alpha_doubling_witness :
  (15 # 6) - (1 # 2) == 1 * torch.mean [1; 2; 3] /\
  (27 # 6) - (1 # 2) == 2 * ((15 # 6) - (1 # 2)).
Proof.
  apply (@training_step_alpha_doubling
           unit Example.loss (Example.module 3 1) (Example.module 3 2)
           Example.batch 1 1 Example.start Example.start
           {| logged := [("loss/cls"%string, 1 # 2);
                         ("loss/reg"%string, 6 # 3);
                         ("loss/reg_x"%string, 1);
                         ("loss/reg_y"%string, 2);
                         ("loss/reg_z"%string, 3)];
              figures := []; global_step := 7 |}
           {| logged := [("loss/cls"%string, 1 # 2);
                         ("loss/reg"%string, 6 # 3);
                         ("loss/reg_x"%string, 1);
                         ("loss/reg_y"%string, 2);
                         ("loss/reg_z"%string, 3)];
              figures := []; global_step := 7 |}
           Example.pred_cls Example.pred_trajectory
           Example.pred_cls Example.pred_trajectory
           (1 # 2) [1; 2; 3] (15 # 6) (27 # 6)
           eq_refl eq_refl eq_refl eq_refl).
  - reflexivity.
  - reflexivity.
  - reflexivity.
Defined.

Lemma init_hard_codes_angle_distance_witness :
  main_model Example.network Example.namespace
  = Some (Example.module 3 1) /\
  distance_type (mtp_loss (Example.module 3 1)) = "angle"%string.
Proof.
  split; [reflexivity|].
  apply (proj1 (proj2 (proj2 (proj2
           (@init_hard_codes_angle_distance unit Example.network 3 2 1
                                            (1 # 10000)))))
         Example.namespace (Example.module 3 1)).
  reflexivity.
Defined.

(** C9, counterexample: with M = 0 on batch index 10 the step does not
    reach the indexing of the hypotheses: numpy refuses the reshape to
    (-1, 0, num_pts, 3) and the exception is ValueError, not IndexError. *)
Lemma training_step_zero_hypotheses_value_error :
  (10 mod 10 = 0)%Z /\
  (M (Example.module 0 1) < 3)%Z /\
  training_step Example.loss (Example.module 0 1) Example.batch 10
                Example.start = Raise ValueError /\
  training_step Example.loss (Example.module 0 1) Example.batch 10
                Example.start <> Raise IndexError.
Proof.
  split; [reflexivity|]. split; [reflexivity|].
  split; [reflexivity|]. discriminate.
Qed.

Lemma training_step_plot_needs_three_hypotheses_witness :
  training_step Example.loss (Example.module 2 1) Example.batch 10
                Example.start
  = Raise IndexError.
Proof.
  apply (proj2 (@training_step_plot_needs_three_hypotheses
                  unit Example.loss (Example.module 2 1) Example.batch 10
                  Example.start eq_refl eq_refl)
               [[10; 0]]
               [[0; 0; 0;  1; 0; 0;  100; 100; 100;  100; 100; 100]]
               (1 # 2) [1; 2; 3]
               [[[[0; 0; 0]; [1; 0; 0]];
                 [[100; 100; 100]; [100; 100; 100]]]]
               eq_refl eq_refl (le_n 3) eq_refl).
Defined.

(** * Further properties of the two steps *)

(** ** What [training_step] leaves behind *)

Lemma column3_inv (t : Tensor3) (i c : nat) (v : Vec) :
  numpy.column3 t i c = Ok v ->
  exists traj, nth_error t i = Some traj /\
               v = map (fun pt => nth c pt 0) traj /\
               Forall (fun pt => (c < length pt)%nat) traj.
Proof.
  unfold numpy.column3.
  destruct (nth_error t i) as [traj|]; simpl; [|discriminate].
  intros H. exists traj. split; [reflexivity|].
  revert v H. induction traj as [|pt traj IH]; intros v H; simpl in H.
  - injection H as <-. split; [reflexivity|constructor].
  - unfold numpy.item in H at 1.
    destruct (nth_error pt c) as [x|] eqn:E; simpl in H; [|discriminate].
    destruct (mapM (fun pt0 => numpy.item pt0 c) traj) as [w|];
      simpl in H; [|discriminate].
    injection H as <-. destruct (IH w eq_refl) as [-> F].
    split.
    + simpl. f_equal. symmetry. apply nth_error_nth with (1:=E).
    + constructor; [|exact F].
      apply nth_error_Some. congruence.
Qed.

Lemma column4_inv (t : Tensor4) (i j c : nat) (v : Vec) :
  numpy.column4 t i j c = Ok v ->
  exists ex traj, nth_error t i = Some ex /\ nth_error ex j = Some traj /\
                  v = map (fun pt => nth c pt 0) traj.
Proof.
  unfold numpy.column4.
  destruct (nth_error t i) as [ex|]; simpl; [|discriminate].
  intros H. apply column3_inv in H. destruct H as (traj & H1 & H2 & _).
  exists ex, traj. auto.
Qed.

Lemma plot_pred_inv (pt : Tensor4) (pc : Mat) (k : nat) (lbl : string)
      (l : line2d) :
  plot_pred pt pc k lbl = Ok l ->
  exists ex traj row c,
    nth_error pt 0 = Some ex /\ nth_error ex k = Some traj /\
    nth_error pc 0 = Some row /\ nth_error row k = Some c /\
    l = {| xdata := map Qopp (map (fun p => nth 1 p 0) traj);
           ydata := map (fun p => nth 0 p 0) traj;
           fmt := "o-";
           label := (lbl, Some c) |}.
Proof.
  unfold plot_pred.
  destruct (numpy.column4 pt 0 k 1) as [y|] eqn:Ey; simpl; [|discriminate].
  destruct (numpy.column4 pt 0 k 0) as [x|] eqn:Ex; simpl; [|discriminate].
  destruct (numpy.item2 pc 0 k) as [c|] eqn:Ec; simpl; [|discriminate].
  intros H. injection H as <-.
  apply column4_inv in Ey. destruct Ey as (ex & traj & H1 & H2 & ->).
  apply column4_inv in Ex. destruct Ex as (ex' & traj' & H1' & H2' & ->).
  rewrite H1 in H1'. injection H1' as <-.
  rewrite H2 in H2'. injection H2' as <-.
  unfold numpy.item2, numpy.item in Ec.
  destruct (nth_error pc 0) as [row|] eqn:Ep; simpl in Ec; [|discriminate].
  destruct (nth_error row k) as [c'|] eqn:Er; simpl in Ec; [|discriminate].
  injection Ec as ->.
  exists ex, traj, row, c. repeat split; auto.
Qed.

(** The figure the plotting branch draws from a reshaped prediction. *)
Lemma plot_inv (Image : Type) (self : PlanningBaselineV0 Image)
      (pred_cls pred_trajectory : Mat) (labels : Tensor3) (s s' : state) :
  plot self pred_cls pred_trajectory labels s = Ok (tt, s') ->
  exists pt l0 l1 l2 gt,
    torch.reshape ValueError (M self) (num_pts self) (concat pred_trajectory)
      = Ok pt /\
    plot_pred pt pred_cls 0 "pred0 - conf %.3f" = Ok l0 /\
    plot_pred pt pred_cls 1 "pred1 - conf %.3f" = Ok l1 /\
    plot_pred pt pred_cls 2 "pred2 - conf %.3f" = Ok l2 /\
    nth_error labels 0 = Some gt /\
    s' = {| logged := logged s;
            figures := figures s ++
              [("test"%string,
                [l0; l1; l2;
                 {| xdata := map Qopp (map (fun p => nth 1 p 0) gt);
                    ydata := map (fun p => nth 0 p 0) gt;
                    fmt := "o-";
                    label := ("gt"%string, None) |}],
                global_step s)];
            global_step := global_step s |}.
Proof.
  unfold plot, bind, lift, add_figure.
  destruct (torch.reshape ValueError (M self) (num_pts self)
                          (concat pred_trajectory)) as [pt|] eqn:R;
    [|discriminate].
  destruct (plot_pred pt pred_cls 0 _) as [l0|] eqn:E0; [|discriminate].
  destruct (plot_pred pt pred_cls 1 _) as [l1|] eqn:E1; [|discriminate].
  destruct (plot_pred pt pred_cls 2 _) as [l2|] eqn:E2; [|discriminate].
  destruct (numpy.column3 labels 0 1) as [gy|] eqn:Ey; [|discriminate].
  destruct (numpy.column3 labels 0 0) as [gx|] eqn:Ex; [|discriminate].
  intros H. injection H as <-.
  apply column3_inv in Ey. destruct Ey as (gt & G & -> & _).
  apply column3_inv in Ex. destruct Ex as (gt' & G' & -> & _).
  rewrite G in G'. injection G' as <-.
  exists pt, l0, l1, l2, gt. repeat split; auto.
Qed.

Section TrainingEffects.

Variable Image : Type.
Variable forward :
  MultipleTrajectoryPredictionLoss ->
  Mat -> Mat -> Tensor3 -> result (Q * Vec).
Variable self : PlanningBaselineV0 Image.
Variable batch : Batch Image.
Variable batch_idx : Z.

(** The state in which the plotting decision is taken. *)
Lemma training_step_state (s s' : state) (v : Q) :
  training_step forward self batch batch_idx s = Ok (v, s') ->
  exists pred_cls pred_trajectory cls_loss reg_loss x y z,
    net self (input_img batch) = Ok (pred_cls, pred_trajectory) /\
    forward (mtp_loss self) pred_cls pred_trajectory (future_poses batch)
      = Ok (cls_loss, reg_loss) /\
    nth_error reg_loss 0 = Some x /\
    nth_error reg_loss 1 = Some y /\
    nth_error reg_loss 2 = Some z /\
    let s1 := {| logged := logged s ++
                   [("loss/cls"%string, cls_loss);
                    ("loss/reg"%string, torch.mean reg_loss);
                    ("loss/reg_x"%string, x);
                    ("loss/reg_y"%string, y);
                    ("loss/reg_z"%string, z)];
                 figures := figures s;
                 global_step := global_step s |} in
    if (batch_idx mod 10 =? 0)%Z
    then plot self pred_cls pred_trajectory (future_poses batch) s1
         = Ok (tt, s')
    else s' = s1.
Proof.
  unfold training_step, bind, lift, log, ret, numpy.item.
  destruct (net self (input_img batch)) as [[pc ptj]|] eqn:Hnet;
    [|discriminate].
  destruct (forward (mtp_loss self) pc ptj (future_poses batch))
    as [[cls reg]|] eqn:Hfw; [|discriminate].
  destruct (nth_error reg 0) as [x|] eqn:E0; [|discriminate].
  destruct (nth_error reg 1) as [y|] eqn:E1; [|discriminate].
  destruct (nth_error reg 2) as [z|] eqn:E2; [|discriminate].
  cbn [of_option logged figures global_step].
  repeat rewrite <- app_assoc. cbn [app].
  intros H. exists pc, ptj, cls, reg, x, y, z.
  do 5 (split; [first [assumption|reflexivity]|]). cbv zeta.
  destruct (batch_idx mod 10 =? 0)%Z.
  - match type of H with
    | match ?c with _ => _ end = _ => destruct c as [[[] s2]|]; [|discriminate]
    end.
    injection H as _ <-. reflexivity.
  - injection H as _ <-. reflexivity.
Qed.

(** On success [training_step] has logged exactly the five losses, in the
    order of the source, has left [global_step] alone, and has added one
    figure tagged "test" at the current step on a plotting batch and none
    otherwise. *)
Theorem training_step_effects (s s' : state) (v : Q) :
  training_step forward self batch batch_idx s = Ok (v, s') ->
  exists pred_cls pred_trajectory cls_loss reg_loss x y z,
    net self (input_img batch) = Ok (pred_cls, pred_trajectory) /\
    forward (mtp_loss self) pred_cls pred_trajectory (future_poses batch)
      = Ok (cls_loss, reg_loss) /\
    nth_error reg_loss 0 = Some x /\
    nth_error reg_loss 1 = Some y /\
    nth_error reg_loss 2 = Some z /\
    logged s' = logged s ++
                [("loss/cls"%string, cls_loss);
                 ("loss/reg"%string, torch.mean reg_loss);
                 ("loss/reg_x"%string, x);
                 ("loss/reg_y"%string, y);
                 ("loss/reg_z"%string, z)] /\
    global_step s' = global_step s /\
    if (batch_idx mod 10 =? 0)%Z
    then exists fig, figures s' = figures s ++
                                  [("test"%string, fig, global_step s)] /\
                     length fig = 4%nat
    else figures s' = figures s.
Proof.
  intros H. apply training_step_state in H.
  destruct H as (pc & ptj & cls & reg & x & y & z & Hn & Hf & X & Y & Z' & H).
  exists pc, ptj, cls, reg, x, y, z.
  repeat (split; [assumption|]). cbv zeta in H.
  destruct (batch_idx mod 10 =? 0)%Z.
  - apply plot_inv in H.
    destruct H as (pt & l0 & l1 & l2 & gt & _ & _ & _ & _ & _ & ->).
    cbn [logged figures global_step].
    split; [reflexivity|]. split; [reflexivity|].
    eexists. split; reflexivity.
  - subst s'. cbn [logged figures global_step]. auto.
Qed.

(** The figure of a plotting batch: hypotheses 0, 1 and 2 of the first
    example, each drawn as (-y, x) and labelled with its confidence, then
    the first ground truth drawn the same way. *)
Theorem training_step_figure (s s' : state) (v : Q) :
  (batch_idx mod 10 = 0)%Z ->
  training_step forward self batch batch_idx s = Ok (v, s') ->
  exists pred_cls pred_trajectory pt hyps conf gt,
    net self (input_img batch) = Ok (pred_cls, pred_trajectory) /\
    torch.reshape ValueError (M self) (num_pts self) (concat pred_trajectory)
      = Ok pt /\
    nth_error pt 0 = Some hyps /\
    nth_error pred_cls 0 = Some conf /\
    nth_error (future_poses batch) 0 = Some gt /\
    (3 <= length hyps)%nat /\ (3 <= length conf)%nat /\
    let line (traj : Mat) (lbl : string * option Q) :=
      {| xdata := map Qopp (map (fun p => nth 1 p 0) traj);
         ydata := map (fun p => nth 0 p 0) traj;
         fmt := "o-";
         label := lbl |} in
    figures s' = figures s ++
      [("test"%string,
        [line (nth 0 hyps []) ("pred0 - conf %.3f"%string, Some (nth 0 conf 0));
         line (nth 1 hyps []) ("pred1 - conf %.3f"%string, Some (nth 1 conf 0));
         line (nth 2 hyps []) ("pred2 - conf %.3f"%string, Some (nth 2 conf 0));
         line gt ("gt"%string, None)],
        global_step s)].
Proof.
  intros Hidx H. apply training_step_state in H.
  destruct H as (pc & ptj & cls & reg & x & y & z & Hn & _ & _ & _ & _ & H).
  cbv zeta in H. apply Z.eqb_eq in Hidx. rewrite Hidx in H.
  apply plot_inv in H.
  destruct H as (pt & l0 & l1 & l2 & gt & R & P0 & P1 & P2 & G & ->).
  apply plot_pred_inv in P0, P1, P2.
  destruct P0 as (ex & t0 & row & c0 & E & T0 & W & C0 & ->).
  destruct P1 as (ex1 & t1 & row1 & c1 & E1 & T1 & W1 & C1 & ->).
  destruct P2 as (ex2 & t2 & row2 & c2 & E2 & T2 & W2 & C2 & ->).
  rewrite E in E1, E2. injection E1 as <-. injection E2 as <-.
  rewrite W in W1, W2. injection W1 as <-. injection W2 as <-.
  exists pc, ptj, pt, ex, row, gt.
  repeat (split; [assumption|]).
  split; [apply nth_error_Some; congruence|].
  split; [apply nth_error_Some; congruence|].
  cbv zeta. cbn [figures].
  rewrite (nth_error_nth _ _ [] T0), (nth_error_nth _ _ [] T1),
    (nth_error_nth _ _ [] T2).
  rewrite (nth_error_nth _ _ 0 C0), (nth_error_nth _ _ 0 C1),
    (nth_error_nth _ _ 0 C2).
  reflexivity.
Qed.

End TrainingEffects.

(** ** How [training_step] fails *)

Section TrainingFailures.

Variable Image : Type.
Variable forward :
  MultipleTrajectoryPredictionLoss ->
  Mat -> Mat -> Tensor3 -> result (Q * Vec).
Variable self : PlanningBaselineV0 Image.
Variable batch : Batch Image.

(** A loss that returns fewer than three regression components makes
    [training_step] raise IndexError on every batch index, plotting or
    not: the per-axis logging indexes components 0, 1 and 2. *)
Theorem training_step_short_reg_loss
        (batch_idx : Z) (s : state)
        (pred_cls pred_trajectory : Mat) (cls_loss : Q) (reg_loss : Vec) :
  net self (input_img batch) = Ok (pred_cls, pred_trajectory) ->
  forward (mtp_loss self) pred_cls pred_trajectory (future_poses batch)
    = Ok (cls_loss, reg_loss) ->
  (length reg_loss < 3)%nat ->
  training_step forward self batch batch_idx s = Raise IndexError.
Proof.
  intros Hnet Hfw Hlen.
  unfold training_step, bind, lift, log, numpy.item. rewrite Hnet, Hfw.
  destruct reg_loss as [|x [|y [|z r]]]; simpl in Hlen; try lia; reflexivity.
Qed.

(** The exceptions of [training_step]: those of the network and of the
    loss pass through unchanged; of its own the step raises only
    IndexError and, on a plotting batch whose predictions numpy cannot
    reshape to (-1, M, num_pts, 3), ValueError. *)
Theorem training_step_exceptions (batch_idx : Z) (s : state) (e : exn) :
  training_step forward self batch batch_idx s = Raise e ->
  net self (input_img batch) = Raise e \/
  exists pred_cls pred_trajectory,
    net self (input_img batch) = Ok (pred_cls, pred_trajectory) /\
    (forward (mtp_loss self) pred_cls pred_trajectory (future_poses batch)
       = Raise e \/
     e = IndexError \/
     (e = ValueError /\ (batch_idx mod 10 = 0)%Z /\
      torch.reshape ValueError (M self) (num_pts self)
                    (concat pred_trajectory) = Raise ValueError)).
Proof.
  intros H.
  destruct (net self (input_img batch)) as [[pc ptj]|e0] eqn:Hnet.
  2:{ left. revert H. unfold training_step, bind, lift. rewrite Hnet.
      congruence. }
  right. exists pc, ptj. split; [reflexivity|].
  destruct (forward (mtp_loss self) pc ptj (future_poses batch))
    as [[cls reg]|e1] eqn:Hfw.
  2:{ left. revert H. unfold training_step, bind, lift. rewrite Hnet, Hfw.
      congruence. }
  right.
  destruct (Nat.lt_ge_cases (length reg) 3) as [Hlt|Hge].
  - left. rewrite (training_step_short_reg_loss batch_idx s Hnet Hfw Hlt) in H.
    congruence.
  - destruct (@training_step_run Image forward self batch batch_idx s _ _ _ _
                                 Hnet Hfw Hge) as [s1 R].
    rewrite R in H. clear R.
    destruct (Z.eqb_spec (batch_idx mod 10) 0) as [Hidx|Hidx];
      [|discriminate H].
    destruct (plot self pc ptj (future_poses batch) s1) as [[[] s2]|e2] eqn:P;
      [discriminate H|].
    injection H as ->.
    revert P. unfold plot, bind, lift.
    destruct (torch.reshape ValueError (M self) (num_pts self) (concat ptj))
      as [pt|e3] eqn:R.
    + intros P. left.
      destruct (plot_pred pt pc 0 _) eqn:E0;
        [|apply plot_pred_raises in E0; congruence].
      destruct (plot_pred pt pc 1 _) eqn:E1;
        [|apply plot_pred_raises in E1; congruence].
      destruct (plot_pred pt pc 2 _) eqn:E2;
        [|apply plot_pred_raises in E2; congruence].
      destruct (numpy.column3 (future_poses batch) 0 1) eqn:G1;
        [|apply column3_raises in G1; congruence].
      destruct (numpy.column3 (future_poses batch) 0 0) eqn:G0;
        [|apply column3_raises in G0; congruence].
      discriminate P.
    + intros P. right. apply reshape_raises in R. subst e3.
      injection P as <-. auto.
Qed.

End TrainingFailures.

(** ** Reshaping *)

Lemma chunks_concat {A : Type} (k n : nat) :
  forall l : list A, concat (torch.chunks k n l) = firstn (k * n) l.
Proof.
  induction k as [|k IH]; intros l; simpl; [reflexivity|].
  rewrite IH. rewrite <- (firstn_skipn n l) at 3.
  destruct (Nat.le_gt_cases n (length l)) as [Hle|Hgt].
  - rewrite firstn_app, firstn_firstn, length_firstn.
    replace (Nat.min (n + k * n) n) with n by lia.
    replace (Nat.min n (length l)) with n by lia.
    replace (n + k * n - n)%nat with (k * n)%nat by lia.
    reflexivity.
  - rewrite skipn_all2 by lia. rewrite firstn_nil, !app_nil_r.
    rewrite firstn_firstn. f_equal. lia.
Qed.

Lemma view_concat {A : Type} (n : nat) (l : list A) :
  (length l mod n = 0)%nat -> concat (torch.view n l) = l.
Proof.
  intros H. unfold torch.view. rewrite chunks_concat.
  apply Nat.Div0.div_exact in H.
  rewrite Nat.mul_comm, <- H. apply firstn_all.
Qed.

(** [reshape] accepts exactly the positive sizes whose product with 3
    divides the number of elements; what it returns has the shape
    (-1, M, num_pts, 3) and, flattened in row-major order, gives back the
    elements it was given. *)
Theorem reshape_round_trip (e : exn) (M num_pts : Z) (data : list Q) :
  let k := (Z.to_nat M * Z.to_nat num_pts * 3)%nat in
  match torch.reshape e M num_pts data with
  | Ok t =>
      (0 < M)%Z /\ (0 < num_pts)%Z /\ (length data mod k = 0)%nat /\
      shape4 (length data / k) (Z.to_nat M) (Z.to_nat num_pts) 3 t /\
      concat (concat (concat t)) = data
  | Raise e' =>
      e' = e /\
      ((M <= 0)%Z \/ (num_pts <= 0)%Z \/ (length data mod k <> 0)%nat)
  end.
Proof.
  intros k.
  destruct (torch.reshape e M num_pts data) as [t|e'] eqn:R.
  - pose proof R as R'. unfold torch.reshape in R'.
    destruct (Z.leb_spec M 0) as [|HM]; [discriminate|].
    destruct (Z.leb_spec num_pts 0) as [|HP]; [discriminate|]. simpl in R'.
    fold k in R'.
    destruct (Nat.eqb_spec (length data mod k) 0) as [E|]; [|discriminate].
    injection R' as <-.
    split; [exact HM|]. split; [exact HP|]. split; [exact E|].
    set (m := Z.to_nat M) in *. set (p := Z.to_nat num_pts) in *.
    assert (Hm : (0 < m)%nat) by (subst m; lia).
    assert (Hp : (0 < p)%nat) by (subst p; lia).
    pose proof E as E'. apply Nat.Div0.div_exact in E'.
    set (B := (length data / k)%nat) in *.
    assert (L : length data = (B * m * p * 3)%nat)
      by (rewrite E'; subst k; ring).
    destruct (reshape_shape e data B HM HP L) as (t' & Ht' & Sh).
    rewrite R in Ht'. injection Ht' as <-.
    split; [exact Sh|].
    destruct (view_shape (B * m * p) (n:=3) data) as [L3 _]; [lia|lia|].
    destruct (view_shape (B * m) (n:=p) (torch.view 3 data)) as [L2 _];
      [lia|lia|].
    rewrite view_concat, view_concat, view_concat; [reflexivity| | |].
    + rewrite L. replace (B * m * p * 3)%nat with ((B * m * p) * 3)%nat by lia.
      apply Nat.Div0.mod_mul.
    + rewrite L3. replace (B * m * p)%nat with ((B * m) * p)%nat by lia.
      apply Nat.Div0.mod_mul.
    + rewrite L2. apply Nat.Div0.mod_mul.
  - split; [apply (reshape_raises _ _ _ _ R)|].
    unfold torch.reshape in R.
    destruct (Z.leb_spec M 0) as [|HM]; [auto|].
    destruct (Z.leb_spec num_pts 0) as [|HP]; [auto|]. simpl in R.
    fold k in R.
    destruct (Nat.eqb_spec (length data mod k) 0) as [E|E]; [discriminate|].
    auto.
Qed.

(** ** Squared errors *)

Lemma Qsq_nonneg (z : Q) : 0 <= z * z.
Proof.
  destruct (Qlt_le_dec z 0) as [H|H].
  - setoid_replace (z * z) with ((- z) * (- z)) by ring.
    apply Qmult_le_0_compat; lra.
  - apply Qmult_le_0_compat; exact H.
Qed.

Lemma Qsq_zero (z : Q) : z * z == 0 <-> z == 0.
Proof.
  split; intros H.
  - apply Qmult_integral in H. tauto.
  - rewrite H. ring.
Qed.

Lemma point_sq_dist_nonneg (a : Vec) : forall b, 0 <= point_sq_dist a b.
Proof.
  induction a as [|x a IH]; intros [|y b]; simpl; try apply Qle_refl.
  pose proof (Qsq_nonneg (x - y)). pose proof (IH b). lra.
Qed.

Lemma l2_distance_nonneg (a : Mat) : forall b, 0 <= l2_distance a b.
Proof.
  induction a as [|p a IH]; intros [|q b]; simpl; try apply Qle_refl.
  pose proof (point_sq_dist_nonneg p q). pose proof (IH b). lra.
Qed.

Lemma batch_sq_error_nonneg (a : Tensor3) : forall b, 0 <= batch_sq_error a b.
Proof.
  induction a as [|t a IH]; intros [|g b]; simpl; try apply Qle_refl.
  pose proof (l2_distance_nonneg t g). pose proof (IH b). lra.
Qed.

Lemma point_sq_dist_zero (a : Vec) :
  forall b, length a = length b ->
            (point_sq_dist a b == 0 <-> Forall2 Qeq a b).
Proof.
  induction a as [|x a IH]; intros [|y b] L; simpl in L; try discriminate.
  - simpl. split; [constructor|reflexivity].
  - simpl. specialize (IH b ltac:(lia)).
    pose proof (Qsq_nonneg (x - y)). pose proof (point_sq_dist_nonneg a b).
    split; intros E.
    + constructor.
      * assert (Z : (x - y) * (x - y) == 0) by lra.
        apply (proj1 (Qsq_zero (x - y))) in Z. lra.
      * apply IH. lra.
    + inversion E as [|? ? ? ? Exy Eab]; subst.
      apply IH in Eab. rewrite Eab, Exy. ring.
Qed.

Lemma l2_distance_zero (a : Mat) :
  forall b, length a = length b ->
            Forall2 (fun p q => length p = length q) a b ->
            (l2_distance a b == 0 <-> Forall2 (Forall2 Qeq) a b).
Proof.
  induction a as [|p a IH]; intros [|q b] L F; simpl in L; try discriminate.
  - simpl. split; [constructor|reflexivity].
  - simpl. inversion F as [|? ? ? ? Lpq F']; subst.
    specialize (IH b ltac:(lia) F').
    pose proof (point_sq_dist_nonneg p q). pose proof (l2_distance_nonneg a b).
    pose proof (point_sq_dist_zero p q Lpq) as Z.
    split; intros E.
    + constructor; [apply Z; lra|apply IH; lra].
    + inversion E as [|? ? ? ? Epq Eab]; subst.
      apply Z in Epq. apply IH in Eab. lra.
Qed.

Lemma shape2_pointwise {A : Type} (n c : nat) (a b : list (list A)) :
  shape2 n c a -> shape2 n c b ->
  Forall2 (fun p q => length p = length q) a b.
Proof.
  revert n b. induction a as [|p a IH]; intros n [|q b] [La Fa] [Lb Fb];
    simpl in *; try lia.
  - constructor.
  - inversion Fa; inversion Fb; subst. constructor; [congruence|].
    apply (IH (length a)); split; auto; lia.
Qed.

Lemma batch_sq_error_zero (B p c : nat) (a : Tensor3) :
  forall b, shape3 B p c a -> shape3 B p c b ->
            (batch_sq_error a b == 0
             <-> Forall2 (Forall2 (Forall2 Qeq)) a b).
Proof.
  revert B. induction a as [|t a IH]; intros B [|g b] [La Fa] [Lb Fb];
    simpl in *; try lia.
  - split; [constructor|reflexivity].
  - inversion Fa as [|? ? Ht Fa']; inversion Fb as [|? ? Hg Fb']; subst.
    assert (IH' : batch_sq_error a b == 0
                  <-> Forall2 (Forall2 (Forall2 Qeq)) a b).
    { apply (IH (length a)); split; auto; lia. }
    pose proof (l2_distance_nonneg t g). pose proof (batch_sq_error_nonneg a b).
    assert (Z : l2_distance t g == 0 <-> Forall2 (Forall2 Qeq) t g).
    { apply l2_distance_zero.
      - destruct Ht, Hg. lia.
      - eapply shape2_pointwise; eauto. }
    split; intros E.
    + constructor; [apply Z; lra|apply IH'; lra].
    + inversion E as [|? ? ? ? Etg Eab]; subst.
      apply Z in Etg. apply IH' in Eab. lra.
Qed.

(** No choice of hypotheses is closer to the ground truth than another
    that is closer example by example. *)
Lemma batch_sq_error_le (a : Tensor3) :
  forall b g, length a = length b ->
    (forall i, (i < length a)%nat ->
       l2_distance (nth i a []) (nth i g [])
       <= l2_distance (nth i b []) (nth i g [])) ->
    batch_sq_error a g <= batch_sq_error b g.
Proof.
  induction a as [|t a IH]; intros [|u b] g L H; simpl in L;
    try discriminate L.
  - apply Qle_refl.
  - destruct g as [|g0 g]; simpl; [apply Qle_refl|].
    pose proof (H 0%nat ltac:(simpl; lia)) as H0. simpl in H0.
    assert (IH' : batch_sq_error a g <= batch_sq_error b g).
    { apply IH; [lia|]. intros i Hi. apply (H (S i)). simpl; lia. }
    lra.
Qed.

(** ** Reading the two validation metrics *)

Lemma filter_length_all {A : Type} (f : A -> bool) (l : list A) :
  length (filter f l) = length l <-> forall x, In x l -> f x = true.
Proof.
  induction l as [|x l IH]; simpl.
  - split; [intros _ y []|reflexivity].
  - destruct (f x) eqn:E; simpl.
    + rewrite Nat.succ_inj_wd, IH. split.
      * intros H y [<-|Hy]; auto.
      * intros H y Hy. apply H. now right.
    + split.
      * intros H. pose proof (filter_length_le f l). lia.
      * intros H. specialize (H x (or_introl eq_refl)). congruence.
Qed.

Lemma filter_length_none {A : Type} (f : A -> bool) (l : list A) :
  length (filter f l) = 0%nat <-> forall x, In x l -> f x = false.
Proof.
  induction l as [|x l IH]; simpl.
  - split; [intros _ y []|reflexivity].
  - destruct (f x) eqn:E; simpl.
    + split; [discriminate|].
      intros H. specialize (H x (or_introl eq_refl)). congruence.
    + rewrite IH. split.
      * intros H y [<-|Hy]; auto.
      * intros H y Hy. apply H. now right.
Qed.

Lemma agreements_all (B : nat) (a b : list nat) :
  agreements B a b = B <->
  forall i, (i < B)%nat -> nth i a 0%nat = nth i b 0%nat.
Proof.
  unfold agreements.
  pose proof (filter_length_all
                (fun i => Nat.eqb (nth i a 0%nat) (nth i b 0%nat)) (seq 0 B))
    as F.
  rewrite length_seq in F. rewrite F.
  split; intros H i Hi.
  - apply Nat.eqb_eq, H, in_seq. lia.
  - apply in_seq in Hi. apply Nat.eqb_eq, H. lia.
Qed.

Lemma agreements_none (B : nat) (a b : list nat) :
  agreements B a b = 0%nat <->
  forall i, (i < B)%nat -> nth i a 0%nat <> nth i b 0%nat.
Proof.
  unfold agreements. rewrite filter_length_none.
  split; intros H i Hi.
  - apply Nat.eqb_neq, H, in_seq. lia.
  - apply in_seq in Hi. apply Nat.eqb_neq, H. lia.
Qed.

Lemma qnat_nonzero (n : nat) : (0 < n)%nat -> ~ qnat n == 0.
Proof. intros H E. pose proof (qnat_pos H). lra. Qed.

Lemma fraction_one (k n : nat) :
  (0 < n)%nat -> (qnat k / qnat n == 1 <-> k = n).
Proof.
  intros Hn. pose proof (qnat_nonzero Hn) as Hz. split; intros H.
  - assert (E : qnat k == qnat n).
    { rewrite <- (@Qmult_div_r (qnat k) (qnat n)) by exact Hz.
      rewrite H. ring. }
    unfold qnat in E. apply (proj1 (inject_Z_injective _ _)) in E. lia.
  - subst k. field. exact Hz.
Qed.

Lemma fraction_zero (k n : nat) :
  (0 < n)%nat -> (qnat k / qnat n == 0 <-> k = 0%nat).
Proof.
  intros Hn. pose proof (qnat_nonzero Hn) as Hz. split; intros H.
  - assert (E : qnat k == qnat 0).
    { rewrite <- (@Qmult_div_r (qnat k) (qnat n)) by exact Hz.
      rewrite H. unfold qnat. simpl. ring. }
    unfold qnat in E. apply (proj1 (inject_Z_injective _ _)) in E. lia.
  - subst k. unfold qnat at 1. simpl. field. exact Hz.
Qed.

Lemma Qdiv_le_pos (a b d : Q) : 0 < d -> a <= b -> a / d <= b / d.
Proof.
  intros Hd H. unfold Qdiv. apply Qmult_le_compat_r; [exact H|].
  apply Qinv_le_0_compat. lra.
Qed.

Lemma Qdiv_zero_pos (a d : Q) : 0 < d -> (a / d == 0 <-> a == 0).
Proof.
  intros Hd. split; intros H.
  - rewrite <- (@Qmult_div_r a d) by lra. rewrite H. ring.
  - rewrite H. field. lra.
Qed.

Lemma length_pos_of_nonempty {A : Type} (l : list A) :
  l <> [] -> (0 < length l)%nat.
Proof. destruct l; [congruence|simpl; lia]. Qed.

Section ValidationReadings.

Variable Image : Type.
Variable self : PlanningBaselineV0 Image.
Variable batch : Batch Image.
Variable batch_idx : Z.
Variable s : state.
Variables pred_cls pred_trajectory : Mat.

Let labels := future_poses batch.
Let B := length pred_cls.

Hypothesis Hnet : net self (input_img batch) = Ok (pred_cls, pred_trajectory).
Hypothesis Hshape :
  well_shaped (M self) (num_pts self) pred_cls pred_trajectory labels.
Hypothesis Hne : pred_cls <> [].

Lemma batch_positive : (0 < B)%nat.
Proof. exact (length_pos_of_nonempty Hne). Qed.

(** The logged accuracy is 1 exactly when the network's choice is the best
    match on every example, and 0 exactly when it is on none. *)
Theorem validation_cls_acc_extremes :
  exists l2_dist cls_acc pred_label best_match,
    validation_metric (M self) (num_pts self) pred_cls pred_trajectory labels
      = Ok (l2_dist, cls_acc, pred_label, best_match) /\
    validation_step self batch batch_idx s
      = Ok (tt, with_metrics s l2_dist cls_acc) /\
    (cls_acc == 1 <-> pred_label = best_match) /\
    (cls_acc == 0 <->
     forall i, (i < B)%nat -> nth i pred_label 0%nat <> nth i best_match 0%nat).
Proof.
  destruct (validation_metric_spec Hshape Hne)
    as (pt & l2 & acc & pl & bm & _ & _ & Hval & Lpl & Lbm & _ & _ & _ & Hacc).
  fold B in Lpl, Lbm, Hacc.
  exists l2, acc, pl, bm.
  split; [exact Hval|].
  split; [eapply validation_step_run; eauto|].
  rewrite Hacc. split.
  - rewrite (fraction_one _ batch_positive), agreements_all. split.
    + intros H. apply nth_ext with (d:=0%nat) (d':=0%nat); [lia|].
      intros i Hi. symmetry. apply H. lia.
    + intros -> i Hi. reflexivity.
  - rewrite (fraction_zero _ batch_positive), agreements_none. split.
    + intros H i Hi E. apply (H i Hi). auto.
    + intros H i Hi E. apply (H i Hi). auto.
Qed.

(** With a single hypothesis both index vectors are all zero and the
    logged accuracy is 1. *)
Theorem validation_single_hypothesis :
  M self = 1%Z ->
  exists l2_dist cls_acc,
    validation_metric (M self) (num_pts self) pred_cls pred_trajectory labels
      = Ok (l2_dist, cls_acc, repeat 0%nat B, repeat 0%nat B) /\
    validation_step self batch batch_idx s
      = Ok (tt, with_metrics s l2_dist cls_acc) /\
    cls_acc == 1.
Proof.
  intros HM.
  destruct (validation_metric_spec Hshape Hne)
    as (pt & l2 & acc & pl & bm & _ & [Lpt Fpt] & Hval & Lpl & Lbm
        & Hmax & Hbest & _ & Hacc).
  fold B in Lpl, Lbm, Hacc, Hmax, Hbest, Lpt.
  rewrite HM in Fpt. change (Z.to_nat 1) with 1%nat in Fpt.
  assert (Epl : pl = repeat 0%nat B).
  { apply nth_ext with (d:=0%nat) (d':=0%nat);
      [rewrite repeat_length; exact Lpl|].
    intros i Hi. rewrite nth_repeat. rewrite Lpl in Hi.
    destruct (Hmax i Hi) as [Hb _].
    destruct (ws_cls Hshape) as [_ Fc].
    rewrite (Forall_nth_shape [] Fc) in Hb by exact Hi.
    rewrite HM in Hb. change (Z.to_nat 1) with 1%nat in Hb. lia. }
  assert (Ebm : bm = repeat 0%nat B).
  { apply nth_ext with (d:=0%nat) (d':=0%nat);
      [rewrite repeat_length; exact Lbm|].
    intros i Hi. rewrite nth_repeat. rewrite Lbm in Hi.
    destruct (Hbest i Hi) as [Hb _].
    assert (Sh : shape3 1 (Z.to_nat (num_pts self)) 3 (nth i pt []))
      by (apply Forall_nth_shape; auto; lia).
    destruct Sh as [Lh _]. lia. }
  subst pl bm. exists l2, acc.
  split; [exact Hval|].
  split; [eapply validation_step_run; eauto|].
  rewrite Hacc. apply (fraction_one _ batch_positive).
  apply agreements_all. reflexivity.
Qed.

(** The logged L2 distance is never negative, and it is 0 exactly when the
    trajectory the network chose coincides with the ground truth on every
    example. *)
Theorem validation_l2_dist_zero_iff :
  exists pt l2_dist cls_acc pred_label best_match,
    torch.reshape RuntimeError (M self) (num_pts self)
                  (concat pred_trajectory) = Ok pt /\
    validation_metric (M self) (num_pts self) pred_cls pred_trajectory labels
      = Ok (l2_dist, cls_acc, pred_label, best_match) /\
    validation_step self batch batch_idx s
      = Ok (tt, with_metrics s l2_dist cls_acc) /\
    0 <= l2_dist /\
    (l2_dist == 0 <->
     Forall2 (Forall2 (Forall2 Qeq)) (select pt pred_label) labels).
Proof.
  destruct (validation_metric_spec Hshape Hne)
    as (pt & l2 & acc & pl & bm & Hpt & Shpt & Hval & Lpl & _
        & Hmax & _ & Hl2 & _).
  fold B in Lpl, Hmax, Hl2, Shpt.
  exists pt, l2, acc, pl, bm.
  split; [exact Hpt|]. split; [exact Hval|].
  split; [eapply validation_step_run; eauto|].
  assert (Hd : 0 < qnat (B * Z.to_nat (num_pts self) * 3)).
  { apply qnat_pos. pose proof batch_positive. pose proof (ws_num_pts Hshape).
    nia. }
  assert (Hlt : forall i, (i < B)%nat -> (nth i pl 0 < Z.to_nat (M self))%nat).
  { intros i Hi. destruct (Hmax i Hi) as [Hb _].
    destruct (ws_cls Hshape) as [_ Fc].
    rewrite (Forall_nth_shape [] Fc) in Hb by exact Hi. exact Hb. }
  destruct (gather_select pl Shpt Lpl batch_positive Hlt) as [_ Shg].
  rewrite Hl2. split.
  - apply Qle_shift_div_l; [exact Hd|]. rewrite Qmult_0_l.
    apply batch_sq_error_nonneg.
  - rewrite (Qdiv_zero_pos _ Hd).
    apply (batch_sq_error_zero Shg (ws_labels Hshape)).
Qed.

(** No choice of one hypothesis per example has a smaller total squared
    error than the best matches; so the logged L2 distance is never below
    the error of the best matches. *)
Theorem validation_l2_dist_oracle_bound :
  exists pt l2_dist cls_acc pred_label best_match,
    torch.reshape RuntimeError (M self) (num_pts self)
                  (concat pred_trajectory) = Ok pt /\
    validation_metric (M self) (num_pts self) pred_cls pred_trajectory labels
      = Ok (l2_dist, cls_acc, pred_label, best_match) /\
    (forall idx : list nat,
        length idx = B ->
        (forall i, (i < B)%nat -> (nth i idx 0 < Z.to_nat (M self))%nat) ->
        batch_sq_error (select pt best_match) labels
        <= batch_sq_error (select pt idx) labels) /\
    batch_sq_error (select pt best_match) labels
      / qnat (B * Z.to_nat (num_pts self) * 3) <= l2_dist.
Proof.
  destruct (validation_metric_spec Hshape Hne)
    as (pt & l2 & acc & pl & bm & Hpt & [Lpt Fpt] & Hval & Lpl & Lbm
        & Hmax & Hbest & Hl2 & _).
  fold B in Lpl, Lbm, Hmax, Hbest, Hl2, Lpt.
  exists pt, l2, acc, pl, bm.
  split; [exact Hpt|]. split; [exact Hval|].
  assert (Hgen : forall idx : list nat,
             length idx = B ->
             (forall i, (i < B)%nat -> (nth i idx 0 < Z.to_nat (M self))%nat) ->
             batch_sq_error (select pt bm) labels
             <= batch_sq_error (select pt idx) labels).
  { intros idx Li Hi. apply batch_sq_error_le.
    - rewrite !select_length; lia.
    - intros i Hlt. rewrite select_length in Hlt by lia.
      rewrite !select_nth by lia.
      destruct (Hbest i ltac:(lia)) as (_ & Hmin & _). apply Hmin.
      assert (Sh : shape3 (Z.to_nat (M self)) (Z.to_nat (num_pts self)) 3
                          (nth i pt []))
        by (apply Forall_nth_shape; auto; lia).
      destruct Sh as [-> _]. apply Hi. lia. }
  split; [exact Hgen|].
  rewrite Hl2. apply Qdiv_le_pos.
  - apply qnat_pos. pose proof batch_positive. pose proof (ws_num_pts Hshape).
    nia.
  - apply Hgen; [exact Lpl|].
    intros i Hi. destruct (Hmax i Hi) as [Hb _].
    destruct (ws_cls Hshape) as [_ Fc].
    rewrite (Forall_nth_shape [] Fc) in Hb by exact Hi. exact Hb.
Qed.

End ValidationReadings.

(** ** The confidences count only through their order *)

Lemma argmax_from_monotone (f : Q -> Q) :
  (forall x y, x < y <-> f x < f y) ->
  forall (v : Vec) (bi : nat) (b : Q) (i : nat),
    torch.argmax_from bi (f b) i (map f v) = torch.argmax_from bi b i v.
Proof.
  intros Hf. induction v as [|x v IH]; intros bi b i; simpl; [reflexivity|].
  replace (Qlt_bool (f b) (f x)) with (Qlt_bool b x).
  - destruct (Qlt_bool b x); apply IH.
  - destruct (Qlt_bool b x) eqn:E; symmetry.
    + apply (proj2 (Qlt_bool_iff _ _)), (proj1 (Hf b x)),
        (proj1 (Qlt_bool_iff _ _)), E.
    + destruct (Qlt_bool (f b) (f x)) eqn:E'; [|reflexivity].
      apply (proj1 (Qlt_bool_iff _ _)), (proj2 (Hf b x)),
        (proj2 (Qlt_bool_iff _ _)) in E'.
      congruence.
Qed.

Lemma argmax_monotone (f : Q -> Q) (pred_cls : Mat) :
  (forall x y, x < y <-> f x < f y) ->
  torch.argmax (map (map f) pred_cls) = torch.argmax pred_cls.
Proof.
  intros Hf. unfold torch.argmax.
  induction pred_cls as [|row m IH]; simpl; [reflexivity|].
  rewrite IH. destruct row as [|x row]; simpl; [reflexivity|].
  rewrite (@argmax_from_monotone f Hf). reflexivity.
Qed.

(** Rescaling every confidence by a strictly increasing function (a
    temperature, a bias) changes nothing of what [validation_step] does:
    same logged metrics, same exceptions. *)
Theorem validation_step_order_only
        (Image : Type) (self1 self2 : PlanningBaselineV0 Image)
        (batch : Batch Image) (batch_idx : Z) (s : state)
        (f : Q -> Q) (pred_cls pred_trajectory : Mat) :
  (forall x y, x < y <-> f x < f y) ->
  M self1 = M self2 ->
  num_pts self1 = num_pts self2 ->
  net self1 (input_img batch) = Ok (pred_cls, pred_trajectory) ->
  net self2 (input_img batch) = Ok (map (map f) pred_cls, pred_trajectory) ->
  validation_step self2 batch batch_idx s
  = validation_step self1 batch batch_idx s.
Proof.
  intros Hf HM HP H1 H2. unfold validation_step, bind, lift.
  rewrite H1, H2, <- HM, <- HP.
  unfold validation_metric.
  rewrite length_map, (@argmax_monotone f pred_cls Hf). reflexivity.
Qed.

(** ** Sizes that cannot be validated *)

(** For sizes within the range of a 64-bit integer, a module with a
    non-positive M or num_pts, or predictions whose number of coordinates
    is not a multiple of M * num_pts * 3, makes [validation_step] raise
    RuntimeError, whatever the batch holds. *)
Theorem validation_step_bad_sizes
        (Image : Type) (self : PlanningBaselineV0 Image)
        (batch : Batch Image) (batch_idx : Z) (s : state)
        (pred_cls pred_trajectory : Mat) :
  (- 9223372036854775808 <= M self < 9223372036854775808)%Z ->
  (- 9223372036854775808 <= num_pts self < 9223372036854775808)%Z ->
  (M self * num_pts self * 3 < 9223372036854775808)%Z ->
  net self (input_img batch) = Ok (pred_cls, pred_trajectory) ->
  (M self <= 0)%Z \/ (num_pts self <= 0)%Z \/
  (length (concat pred_trajectory)
     mod (Z.to_nat (M self) * Z.to_nat (num_pts self) * 3) <> 0)%nat ->
  validation_step self batch batch_idx s = Raise RuntimeError.
Proof.
  intros _ _ _ Hnet Hbad. unfold validation_step, bind, lift. rewrite Hnet.
  unfold validation_metric.
  pose proof (reshape_round_trip RuntimeError (M self) (num_pts self)
                                 (concat pred_trajectory)) as R.
  cbv zeta in R.
  destruct (torch.reshape RuntimeError (M self) (num_pts self)
                          (concat pred_trajectory)) as [pt|e].
  - destruct R as (HM & HP & Hdiv & _). lia.
  - destruct R as [-> _]. reflexivity.
Qed.

(** ** Declaring the model's options *)



(** ** The further properties on the concrete batch *)

Lemma example_single_shaped :
  well_shaped 1 2 [[10]] [[0; 0; 0;  1; 0; 0]] Example.labels.
Proof.
  constructor; try reflexivity.
  - split; [reflexivity|]. repeat constructor.
  - split; [reflexivity|]. repeat constructor.
Defined.

Lemma training_step_effects_witness :
  exists v s',
    training_step Example.loss (Example.module 3 1) Example.batch 0
                  Example.start = Ok (v, s') /\
    global_step s' = 7%Z /\
    exists fig, figures s' = [("test"%string, fig, 7%Z)] /\
                length fig = 4%nat.
Proof.
  assert (E : exists v s',
             training_step Example.loss (Example.module 3 1) Example.batch 0
                           Example.start = Ok (v, s'))
    by (do 2 eexists; reflexivity).
  destruct E as (v & s' & E). exists v, s'. split; [exact E|].
  apply training_step_effects in E.
  destruct E as (_ & _ & _ & _ & _ & _ & _ & _ & _ & _ & _ & _ & _ & G & F).
  split; [exact G|]. exact F.
Defined.

Lemma training_step_figure_witness :
  exists v s' (hyps : Tensor3),
    training_step Example.loss (Example.module 3 1) Example.batch 10
                  Example.start = Ok (v, s') /\
    (3 <= length hyps)%nat.
Proof.
  assert (E : exists v s',
             training_step Example.loss (Example.module 3 1) Example.batch 10
                           Example.start = Ok (v, s'))
    by (do 2 eexists; reflexivity).
  destruct E as (v & s' & E).
  destruct (@training_step_figure unit Example.loss (Example.module 3 1)
              Example.batch 10 Example.start s' v eq_refl E)
    as (_ & _ & _ & hyps & _ & _ & _ & _ & _ & _ & _ & H & _).
  exists v, s', hyps. split; [exact E|exact H].
Defined.

Lemma training_step_short_reg_loss_witness :
  training_step (fun _ _ _ _ => Ok (1 # 2, [1; 2]))
                (Example.module 3 1) Example.batch 1 Example.start
  = Raise IndexError.
Proof.
  apply (@training_step_short_reg_loss
           unit (fun _ _ _ _ => Ok (1 # 2, [1; 2])) (Example.module 3 1)
           Example.batch 1 Example.start
           Example.pred_cls Example.pred_trajectory (1 # 2) [1; 2]
           eq_refl eq_refl).
  simpl. lia.
Defined.

Lemma training_step_exceptions_witness :
  net (Example.module 2 1) (input_img Example.batch) = Raise IndexError \/
  exists pred_cls pred_trajectory,
    net (Example.module 2 1) (input_img Example.batch)
      = Ok (pred_cls, pred_trajectory) /\
    (Example.loss (mtp_loss (Example.module 2 1)) pred_cls pred_trajectory
                  (future_poses Example.batch) = Raise IndexError \/
     IndexError = IndexError \/
     (IndexError = ValueError /\ (10 mod 10 = 0)%Z /\
      torch.reshape ValueError (M (Example.module 2 1))
                    (num_pts (Example.module 2 1))
                    (concat pred_trajectory) = Raise ValueError)).
Proof.
  apply (@training_step_exceptions
           unit Example.loss (Example.module 2 1) Example.batch 10
           Example.start IndexError eq_refl).
Defined.

Lemma validation_cls_acc_extremes_witness :
  exists (cls_acc : Q) (pred_label best_match : list nat),
    cls_acc == 1 <-> pred_label = best_match.
Proof.
  destruct (@validation_cls_acc_extremes
              unit (Example.module 3 1) Example.batch 0%Z Example.start
              Example.pred_cls Example.pred_trajectory
              eq_refl example_shaped example_nonempty)
    as (_ & acc & pl & bm & _ & _ & H & _).
  exists acc, pl, bm. exact H.
Defined.

Lemma validation_single_hypothesis_witness :
  exists cls_acc, cls_acc == 1.
Proof.
  destruct (@validation_single_hypothesis
              unit (Example.module 1 1) Example.batch 0%Z Example.start
              [[10]] [[0; 0; 0;  1; 0; 0]]
              eq_refl example_single_shaped ltac:(discriminate) eq_refl)
    as (_ & acc & _ & _ & H).
  exists acc. exact H.
Defined.

Lemma validation_l2_dist_zero_iff_witness :
  exists l2_dist, 0 <= l2_dist.
Proof.
  destruct (@validation_l2_dist_zero_iff
              unit (Example.module 3 1) Example.batch 0%Z Example.start
              Example.pred_cls Example.pred_trajectory
              eq_refl example_shaped example_nonempty)
    as (_ & l2 & _ & _ & _ & _ & _ & _ & H & _).
  exists l2. exact H.
Defined.

Lemma validation_l2_dist_oracle_bound_witness :
  exists pt l2_dist best_match,
    batch_sq_error (select pt best_match) Example.labels
      / qnat (1 * 2 * 3) <= l2_dist.
Proof.
  destruct (@validation_l2_dist_oracle_bound
              unit (Example.module 3 1) Example.batch
              Example.pred_cls Example.pred_trajectory
              example_shaped example_nonempty)
    as (pt & l2 & _ & _ & bm & _ & _ & _ & H).
  exists pt, l2, bm. exact H.
Defined.

Lemma validation_step_order_only_witness :
  validation_step
    {| M := 3; num_pts := 2; mtp_alpha := 1; lr := 1 # 10000;
       net := fun _ : unit =>
                Ok (map (map (fun x => 2 * x + 1)) Example.pred_cls,
                    Example.pred_trajectory);
       mtp_loss := mtp_loss (Example.module 3 1) |}
    Example.batch 0 Example.start
  = validation_step (Example.module 3 1) Example.batch 0 Example.start.
Proof.
  apply (@validation_step_order_only
           unit (Example.module 3 1) _ Example.batch 0 Example.start
           (fun x => 2 * x + 1) Example.pred_cls Example.pred_trajectory).
  - intros x y. split; intros H; lra.
  - reflexivity.
  - reflexivity.
  - reflexivity.
  - reflexivity.
Defined.

Lemma validation_step_bad_sizes_witness :
  validation_step (Example.module 0 1) Example.batch 0 Example.start
  = Raise RuntimeError.
Proof.
  apply (@validation_step_bad_sizes
           unit (Example.module 0 1) Example.batch 0 Example.start
           [[]] [[]]).
  - simpl. lia.
  - simpl. lia.
  - reflexivity.
  - reflexivity.
  - left. simpl. lia.
Defined.
